(** * haxball-server: the Discord control panel ([src/painel.ts])

    A shallow embedding of [ServerPainel]: the message listener installed by
    the constructor, the command parser and dispatcher [_command], the room
    inventory [_getRoomNameList] and the telemetry loop [_getRoomUsageList].

    Conventions.
    - JavaScript strings are [string]s (sequences of 8-bit characters, the
      UTF-8 encoding of the text).  White space and letter case are those of
      the ASCII range; other characters pass through [trim] and
      [toLowerCase] unchanged.
    - An [async] function is a computation in the monad [M]: it threads the
      fleet ([this._server.browsers]), appends to a trace of the calls made
      to the outside world, and completes normally, by a throw (the promise
      is rejected) or by [process.exit()].
    - The collaborators that are not part of the file ([Server], pidusage,
      node-os-utils, fs, [eval]) are the fields of [Env]; what a puppeteer
      browser answers is held by its [Browser] record.  A message sent to
      the Discord channel is an entry of the trace; the delivery itself is
      not modelled. *)

From Stdlib Require Import String Ascii List ZArith Bool Lia Permutation.
From Stdlib Require Import Numbers.DecimalString.
Import ListNotations.
Open Scope list_scope.
Open Scope string_scope.

(** ** JavaScript string and array primitives used by the panel *)

Module JS.

(** [s.startsWith(p)] *)
Definition startsWith (s p : string) : bool := String.prefix p s.

(** [s.slice(n)] for [0 <= n]: the text from index [n] on. *)
Fixpoint slice (n : nat) (s : string) : string :=
  match n, s with
  | O, _ => s
  | S _, EmptyString => EmptyString
  | S n', String _ s' => slice n' s'
  end.

(** White space recognised by [trim] in the ASCII range:
    TAB, LF, VT, FF, CR and SPACE. *)
Definition is_space (c : ascii) : bool :=
  let n := nat_of_ascii c in
  ((9 <=? n)%nat && (n <=? 13)%nat) || (n =? 32)%nat.

Fixpoint trimStart (s : string) : string :=
  match s with
  | EmptyString => EmptyString
  | String c s' => if is_space c then trimStart s' else s
  end.

Fixpoint trimEnd (s : string) : string :=
  match s with
  | EmptyString => EmptyString
  | String c s' =>
      match trimEnd s' with
      | EmptyString => if is_space c then EmptyString else String c EmptyString
      | r => String c r
      end
  end.

(** [s.trim()] *)
Definition trim (s : string) : string := trimEnd (trimStart s).

(** [s.split(sep)] for a separator of one character: never empty, the empty
    string gives one empty piece, adjacent separators give empty pieces. *)
Fixpoint split (sep : ascii) (s : string) : list string :=
  match s with
  | EmptyString => [EmptyString]
  | String c s' =>
      if Ascii.eqb c sep then EmptyString :: split sep s'
      else match split sep s' with
           | [] => [String c EmptyString]
           | t :: ts => String c t :: ts
           end
  end.

(** [s.replace(pat, rep)] with a string pattern: the first occurrence of
    [pat], scanning from the left, is replaced; without an occurrence [s] is
    returned.  (The panel only ever passes the replacement [""], so the
    dollar patterns of replacement strings play no part.) *)
Fixpoint replace (pat rep s : string) : string :=
  if String.prefix pat s then rep ++ slice (String.length pat) s
  else match s with
       | EmptyString => EmptyString
       | String c s' => String c (replace pat rep s')
       end.

(** [s.replace(/c/g, "")] for a one-character pattern: every [c] removed. *)
Fixpoint removeAll (c : ascii) (s : string) : string :=
  match s with
  | EmptyString => EmptyString
  | String d s' => if Ascii.eqb d c then removeAll c s' else String d (removeAll c s')
  end.

Definition lower (c : ascii) : ascii :=
  let n := nat_of_ascii c in
  if ((65 <=? n)%nat && (n <=? 90)%nat) then ascii_of_nat (n + 32) else c.

(** [s.toLowerCase()] *)
Fixpoint toLowerCase (s : string) : string :=
  match s with
  | EmptyString => EmptyString
  | String c s' => String (lower c) (toLowerCase s')
  end.

(** [xs.includes(x)] on an array of strings, where [x] may be [undefined]
    ([None]); no string is [undefined]. *)
Definition includes (xs : list string) (x : option string) : bool :=
  match x with
  | None => false
  | Some s => existsb (String.eqb s) xs
  end.

(** [xs.join(sep)] *)
Fixpoint join (sep : string) (xs : list string) : string :=
  match xs with
  | [] => EmptyString
  | [x] => x
  | x :: rest => x ++ sep ++ join sep rest
  end.

(** String conversion of a possibly [undefined] string, as in
    [args[0] + " "]. *)
Definition str (x : option string) : string :=
  match x with
  | None => "undefined"
  | Some s => s
  end.

(** Decimal text of an integer, as in a template literal. *)
Definition ofZ (z : Z) : string := NilEmpty.string_of_int (Z.to_int z).

(** Text of a possibly [undefined] integer. *)
Definition ofZopt (z : option Z) : string :=
  match z with
  | None => "undefined"
  | Some n => ofZ n
  end.

End JS.

(** ** Command parsing ([_command], lines 103-107) *)

(** The three values computed before dispatch.  [args] is the array after
    [args.shift()], [text] the tail handed to [close] and [open], [command]
    the lower-cased first piece ([None] for [undefined]). *)
Record Parsed := {
  command : option string;
  args : list string;
  text : string
}.

Definition parse (prefix content : string) : Parsed :=
  let body := JS.trim (JS.slice (String.length prefix) content) in
  let args0 := JS.split " " body in
  let text := JS.replace (JS.str (hd_error args0) ++ " ") "" body in
  {| command := option_map JS.toLowerCase (hd_error args0);
     args := tl args0;
     text := text |}.

(** ** Numbers

    Telemetry readings are JavaScript numbers.  The panel only renders them,
    after a little arithmetic; the operations it uses form an interface, and
    every result below holds for any implementation of it. *)

Class Numeric (Num : Type) := {
  (** [String(x)], as in [x + "%"] and in template literals *)
  num_show : Num -> string;
  (** [x.toFixed(2)] *)
  num_toFixed2 : Num -> string;
  (** [100 - x] *)
  num_rsub100 : Num -> Num;
  (** [x / 1000] *)
  num_div1000 : Num -> Num;
  (** [x * 1e-6] *)
  num_mul1e_6 : Num -> Num;
  (** [new Date(x * 1000).toISOString().substr(11, 8)] *)
  num_clock : Num -> string
}.

(** ** Data model *)

Definition Error := string.

(** Outcome of a call to a collaborator: a value, or a failure (a throw, or
    a promise that rejects). *)
Inductive Res (A : Type) : Type :=
| Ok (a : A)
| Err (e : Error).
Arguments Ok {A} a.
Arguments Err {A} e.

(** [PainelConfig] (lines 10-15).  [bots] lists the entries of the object in
    the order of [Object.keys]. *)
Record PainelConfig := {
  discordToken : string;
  discordPrefix : string;
  bots : list (string * string);
  mastersDiscordId : list string
}.

(** [Object.keys(this._bots)] *)
Definition bots_keys (cfg : PainelConfig) : list string := map fst (bots cfg).

(** [this._bots[k]] *)
Fixpoint bots_get (bs : list (string * string)) (k : option string) : option string :=
  match bs, k with
  | (k', v) :: rest, Some s => if String.eqb s k' then Some v else bots_get rest k
  | _, _ => None
  end.

(** The part of a [Discord.Message] the panel reads. *)
Record Message := {
  content : string;
  author_id : string
}.

(** A [Discord.MessageEmbed], as far as the panel fills it. *)
Record Field := {
  field_name : string;
  field_value : string;
  field_inline : bool
}.

Record Embed := {
  embed_color : option string;
  embed_title : option string;
  embed_timestamp : option Z;
  embed_description : option string;
  embed_fields : list Field
}.

Definition newEmbed : Embed :=
  {| embed_color := None; embed_title := None; embed_timestamp := None;
     embed_description := None; embed_fields := [] |}.

Definition setColor (c : string) (e : Embed) : Embed :=
  {| embed_color := Some c; embed_title := embed_title e;
     embed_timestamp := embed_timestamp e;
     embed_description := embed_description e; embed_fields := embed_fields e |}.

Definition setTitle (t : string) (e : Embed) : Embed :=
  {| embed_color := embed_color e; embed_title := Some t;
     embed_timestamp := embed_timestamp e;
     embed_description := embed_description e; embed_fields := embed_fields e |}.

Definition setTimestamp (t : Z) (e : Embed) : Embed :=
  {| embed_color := embed_color e; embed_title := embed_title e;
     embed_timestamp := Some t;
     embed_description := embed_description e; embed_fields := embed_fields e |}.

Definition setDescription (d : string) (e : Embed) : Embed :=
  {| embed_color := embed_color e; embed_title := embed_title e;
     embed_timestamp := embed_timestamp e;
     embed_description := Some d; embed_fields := embed_fields e |}.

(** [addField].  discord.js refuses an empty name or value with a
    RangeError; the builder does not model that refusal.  The names and
    values that the panel writes as literals are not empty, and a result on
    a field computed from data states that the value is not empty. *)
Definition addField (name value : string) (inline : bool) (e : Embed) : Embed :=
  {| embed_color := embed_color e; embed_title := embed_title e;
     embed_timestamp := embed_timestamp e;
     embed_description := embed_description e;
     embed_fields := (embed_fields e ++ [{| field_name := name; field_value := value;
                                            field_inline := inline |}])%list |}.

(** A [pidusage.Status], as far as the panel reads it. *)
Record Status {Num : Type} := {
  status_cpu : Num;
  status_memory : Num;
  status_pid : Z
}.

(** A puppeteer page: the outcome of [page.title()]. *)
Record Page := {
  page_title : Res string
}.

(** A puppeteer browser of [this._server.browsers]: the outcome of
    [browser.pages()], the [proxyServer] property ([None] for [undefined])
    and [browser.process()?.pid]. *)
Record Browser := {
  browser_pages : Res (list Page);
  proxyServer : option string;
  process_pid : option Z
}.

Definition Fleet := list Browser.

(** What [this._server.open] resolves to; the panel reads [e?.link] and
    [e?.pid]. *)
Record OpenInfo := {
  open_link : string;
  open_pid : Z
}.

(** [node-os-utils]' [mem.info()] *)
Record MemInfo {Num : Type} := {
  usedMemMb : Num;
  totalMemMb : Num;
  freeMemPercentage : Num
}.

(** The collaborators.  [server_open] and [server_close] are the methods of
    [Server], which owns the fleet: they take it and give it back. *)
Record Env {Num : Type} := {
  server_open : string -> string -> Fleet -> Res (option OpenInfo) * Fleet;
  server_close : string -> Fleet -> Res bool * Fleet;
  fs_readFile : option string -> Res string;
  pidusage : option Z -> Res (@Status Num);
  own_pid : Z;
  mem_info : Res (@MemInfo Num);
  cpu_usage : Res Num;
  cpu_count : Num;
  os_oos : Res string;
  os_uptime : Num;
  js_eval : string -> Fleet -> Res string * Fleet;
  date_now : Z
}.

(** ** Calls to the outside world, in the order they are made *)

Inductive Event :=
| ChannelSend (e : Embed)
| ChannelSendText (s : string) (code : option string)
| MessageEdit (e : Embed)
| FsReadFile (path : option string)
| ServerOpen (data token : string)
| ServerClose (target : string)
| Pidusage (pid : option Z)
| JsEval (code : string)
| BrowserClose (b : Browser)
| ProcessExit.

(** ** The monad of [async] code *)

Inductive Completion (A : Type) : Type :=
| Normal (a : A)
| Throw (e : Error)
| Exited.
Arguments Normal {A} a.
Arguments Throw {A} e.
Arguments Exited {A}.

Record Out (A : Type) := {
  res : Completion A;
  fleet : Fleet;
  log : list Event
}.
Arguments res {A} o.
Arguments fleet {A} o.
Arguments log {A} o.

Definition M (A : Type) : Type := Fleet -> Out A.

Definition ret {A} (a : A) : M A :=
  fun f => {| res := Normal a; fleet := f; log := [] |}.

Definition throw {A} (e : Error) : M A :=
  fun f => {| res := Throw e; fleet := f; log := [] |}.

Definition bind {A B} (m : M A) (k : A -> M B) : M B :=
  fun f =>
    let o := m f in
    match res o with
    | Normal a =>
        let o' := k a (fleet o) in
        {| res := res o'; fleet := fleet o'; log := (log o ++ log o')%list |}
    | Throw e => {| res := Throw e; fleet := fleet o; log := log o |}
    | Exited => {| res := Exited; fleet := fleet o; log := log o |}
    end.

(** [try { m } catch (e) { h e }] *)
Definition try_catch {A} (m : M A) (h : Error -> M A) : M A :=
  fun f =>
    let o := m f in
    match res o with
    | Throw e =>
        let o' := h e (fleet o) in
        {| res := res o'; fleet := fleet o'; log := (log o ++ log o')%list |}
    | _ => o
    end.

Definition emit (ev : Event) : M unit :=
  fun f => {| res := Normal tt; fleet := f; log := [ev] |}.

(** [await] of a collaborator's outcome *)
Definition await {A} (r : Res A) : M A :=
  match r with
  | Ok a => ret a
  | Err e => throw e
  end.

(** [this._server.browsers] *)
Definition browsers : M Fleet :=
  fun f => {| res := Normal f; fleet := f; log := [] |}.

Declare Scope painel_scope.
Delimit Scope painel_scope with painel.
Notation "x <- m ;; k" := (bind m (fun x => k))
  (at level 100, m at next level, right associativity) : painel_scope.
Notation "m ;;; k" := (bind m (fun _ => k))
  (at level 100, right associativity) : painel_scope.
Open Scope painel_scope.

(** ** The panel *)

(** The line feed and the double quote, by their codes. *)
Definition nl : string := String "010"%char EmptyString.
Definition dquote : ascii := "034"%char.

(** An entry of [rooms] and an entry of [proxyRooms] in [_getRoomNameList];
    an entry of [roomsUsage] in [_getRoomUsageList]. *)
Record Room := {
  room_name : string;
  room_proxy : option string
}.

Record ProxyRoom := {
  pr_text : string;
  pr_proxy : option string
}.

(** [a === b] on values that are a string or [undefined] *)
Definition proxy_eqb (a b : option string) : bool :=
  match a, b with
  | None, None => true
  | Some x, Some y => String.eqb x y
  | _, _ => false
  end.

(** [x == null] *)
Definition is_null {A} (x : option A) : bool :=
  match x with
  | None => true
  | Some _ => false
  end.

(** One turn of the loop on lines 77-85: [find] picks the first entry with
    the room's proxy and its [text] is extended in place; without such an
    entry a new one is pushed at the end. *)
Fixpoint add_room (room : Room) (prs : list ProxyRoom) : list ProxyRoom :=
  match prs with
  | [] => [{| pr_text := room_name room ++ nl; pr_proxy := room_proxy room |}]
  | r :: rest =>
      if proxy_eqb (pr_proxy r) (room_proxy room)
      then {| pr_text := pr_text r ++ room_name room ++ nl; pr_proxy := pr_proxy r |} :: rest
      else r :: add_room room rest
  end.

(** Lines 75-85: [proxyRooms] after the loop over [rooms]. *)
Definition proxyRooms (rooms : list Room) : list ProxyRoom :=
  fold_left (fun prs room => add_room room prs) rooms [].

(** Line 87: one entry of the report. *)
Definition render_proxyRoom (r : ProxyRoom) : string :=
  "• " ++ JS.str (pr_proxy r) ++ nl ++ pr_text r.

(** Lines 72-87: the report, from the rooms read. *)
Definition roomNameList (rooms : list Room) : string :=
  if (List.length rooms =? 0)%nat then "There are no open rooms!"
  else if forallb (fun r => is_null (room_proxy r)) rooms
       then JS.join nl (map room_name rooms)
       else JS.join nl (map render_proxyRoom (proxyRooms rooms)).

(** Flow of control after a handler: go on to the next test, or [return]. *)
Inductive Flow := Continue | Return.

(** A promise once settled. *)
Inductive Settled := Fulfilled | Rejected (e : Error).

Section ServerPainel.

Context {Num : Type} {numeric : Numeric Num}.
Variable cfg : PainelConfig.
Variable env : @Env Num.

Record RoomUsage := {
  usage_process : @Status Num;
  usage_title : string
}.

(** A [for ... of] loop that pushes one value per element. *)
Fixpoint for_each {A B} (f : A -> M B) (xs : list A) : M (list B) :=
  match xs with
  | [] => ret []
  | x :: rest => y <- f x ;; ys <- for_each f rest ;; ret (y :: ys)
  end.

(** [msg.channel.send(embed)] *)
Definition send (e : Embed) : M unit := emit (ChannelSend e).

(** [page.title()] on [(await browser.pages())[0]], which is [undefined]
    when the browser has no page. *)
Definition title_of (page : option Page) : M string :=
  match page with
  | None => throw "TypeError: Cannot read property 'title' of undefined"
  | Some pg => await (page_title pg)
  end.

(** Lines 52-60 *)
Definition _logError (e : Error) : M unit :=
  send (setDescription e
         (setTimestamp (date_now env)
           (setTitle "Log Error" (setColor "#0099ff" newEmbed)))).

(** Lines 65-70: one turn of the loop. *)
Definition read_room (b : Browser) : M Room :=
  ps <- await (browser_pages b) ;;
  let page := hd_error ps in
  let proxy := proxyServer b in
  t <- title_of page ;;
  ret {| room_name := t ++ " (" ++ JS.ofZopt (process_pid b) ++ ")";
         room_proxy := proxy |}.

(** Lines 62-88 *)
Definition _getRoomNameList : M string :=
  bs <- browsers ;;
  rooms <- for_each read_room bs ;;
  ret (roomNameList rooms).

(** Lines 93-97: one turn of the loop. *)
Definition sample_room (b : Browser) : M RoomUsage :=
  ps <- await (browser_pages b) ;;
  let page := hd_error ps in
  (emit (Pidusage (process_pid b)) ;;;
   st <- await (pidusage env (process_pid b)) ;;
   t <- title_of page ;;
   ret {| usage_process := st; usage_title := t |}).

(** Lines 90-100 *)
Definition _getRoomUsageList : M (list RoomUsage) :=
  bs <- browsers ;;
  for_each sample_room bs.

(** Line 109 *)
Definition embed0 : Embed := setColor "#0099ff" newEmbed.

(** [command === name] *)
Definition is_cmd (p : Parsed) (name : string) : bool :=
  match command p with
  | Some c => String.eqb c name
  | None => false
  end.

Definition when (b : bool) (m : M unit) : M unit :=
  if b then m else ret tt.

(** Lines 112-126 *)
Definition help_embed : Embed :=
       (addField "tokenlink" "Haxball Headless Token page." true
       (addField "eval" "Execute Javascript." true
       (addField "exit" "Close the server." true
       (addField "close" "Close a room." true
       (addField "open" "Open a room." true
       (addField "meminfo" "CPU and memory info." true
       (addField "info" "Server info." true
       (addField "help" "Command list." true
       (setDescription "Haxball Server is a small server utility for Haxball rooms."
       (setTitle "Help" embed0)))))))))).

Definition cmd_help : M unit := send help_embed.

(** Lines 128-134 *)
Definition cmd_tokenlink : M unit :=
  send (setDescription "[Click here.](https://www.haxball.com/headlesstoken)"
       (setTitle "Headless Token" embed0)).

(** Line 139 *)
Definition open_token (p : Parsed) : string :=
  JS.replace "Token obtained: " ""
    (JS.removeAll dquote
      (JS.replace (JS.str (hd_error (args p)) ++ " ") "" (text p))).

Definition unknown_bot_text : string :=
  "This bot does not exist. Type " ++ discordPrefix cfg
    ++ "info to see the list of available bots.".

Definition missing_token_text : string :=
  "You have to define a headless token [token](https://www.haxball.com/headlesstoken) as second argument: "
    ++ discordPrefix cfg ++ "open <bot> <token>".

(** [await this._server.open(data, token)] *)
Definition call_open (data token : string) : M (option OpenInfo) :=
  emit (ServerOpen data token) ;;;
  (fun f =>
     let (r, f') := server_open env data token f in
     {| res := match r with Ok a => Normal a | Err e => Throw e end;
        fleet := f'; log := [] |}).

(** [await this._server.close(text)] *)
Definition call_close (target : string) : M bool :=
  emit (ServerClose target) ;;;
  (fun f =>
     let (r, f') := server_close env target f in
     {| res := match r with Ok a => Normal a | Err e => Throw e end;
        fleet := f'; log := [] |}).

(** [eval(code)], with the conversion of the value to a string.  The
    evaluated code is taken to return or to throw, and to touch nothing but
    the fleet. *)
Definition call_eval (code : string) : M string :=
  emit (JsEval code) ;;;
  (fun f =>
     let (r, f') := js_eval env code f in
     {| res := match r with Ok a => Normal a | Err e => Throw e end;
        fleet := f'; log := [] |}).

Definition room_running_text (e : option OpenInfo) : string :=
  "Room running! [Click here to join.](" ++ JS.str (option_map open_link e) ++ ")"
    ++ nl ++ "Browser process: " ++ JS.ofZopt (option_map open_pid e).

(** Lines 151-165: the callback of [fs.readFile].  It runs once [_command]
    has returned; every branch sets the description, then the embed is
    sent. *)
Definition open_callback (embed : Embed) (token : string) (r : Res string) : M unit :=
  embed' <- match r with
            | Err err => ret (setDescription ("Error: " ++ err) embed)
            | Ok data =>
                try_catch
                  (e <- call_open data token ;;
                   ret (setDescription (room_running_text e) embed))
                  (fun e => ret (setDescription ("Unable to open the room!" ++ nl ++ " " ++ e) embed))
            end ;;
  send embed'.

(** Lines 136-166 *)
Definition cmd_open (p : Parsed) : M Flow :=
  let embed := setTitle "Open room" embed0 in
  let token := open_token p in
  if negb (JS.includes (bots_keys cfg) (hd_error (args p))) then
    (send (setDescription unknown_bot_text embed) ;;; ret Return)
  else
    let embed := if String.eqb token "" then setDescription missing_token_text embed
                 else embed in
    let path := bots_get (bots cfg) (hd_error (args p)) in
    (emit (FsReadFile path) ;;;
     open_callback embed token (fs_readFile env path) ;;;
     ret Continue).

(** Lines 168-178 *)
Definition cmd_info : M unit :=
  roomList <- _getRoomNameList ;;
  let files := bots_keys cfg in
  send (addField "Bot list" (JS.join nl files) false
       (addField "Open rooms" roomList false
       (setTitle "Information" embed0))).

Definition embedLoading : Embed :=
  setDescription "Loading..." (setTitle "Information" (setColor "#0099ff" newEmbed)).

(** Line 198 *)
Definition memory_text (m : @MemInfo Num) : string :=
  num_toFixed2 (num_div1000 (usedMemMb m)) ++ "/"
    ++ num_toFixed2 (num_div1000 (totalMemMb m)) ++ " GB ("
    ++ num_show (freeMemPercentage m) ++ "% livre)".

(** Line 204 *)
Definition serverCPUUsage (s : @Status Num) : string :=
  "CPU server usage: " ++ num_toFixed2 (status_cpu s) ++ "%" ++ nl
    ++ "Memory server usage: " ++ num_toFixed2 (num_mul1e_6 (status_memory s))
    ++ " MB" ++ nl.

(** Line 205: the entry of one room. *)
Definition room_usage_text (room : RoomUsage) : string :=
  "**" ++ usage_title room ++ " (" ++ JS.ofZ (status_pid (usage_process room)) ++ ")**:" ++ nl
    ++ num_toFixed2 (status_cpu (usage_process room)) ++ "% CPU" ++ nl
    ++ num_toFixed2 (num_mul1e_6 (status_memory (usage_process room))) ++ " MB memory" ++ nl.

(** Line 205 *)
Definition roomCPUMessage (bs : Fleet) (roomsUsage : list RoomUsage) : string :=
  if (0 <? List.length bs)%nat
  then nl ++ JS.join nl (map room_usage_text roomsUsage)
  else "".

(** Lines 193-207: the report, from the samples taken. *)
Definition meminfo_embed (bs : Fleet) (roomsUsage : list RoomUsage)
    (memInfo : @MemInfo Num) (cpuUsage : Num) (oos : string)
    (serverPIDUsage : @Status Num) : Embed :=
  setDescription (serverCPUUsage serverPIDUsage ++ roomCPUMessage bs roomsUsage ++ nl)
    (addField "Machine Uptime" (num_clock (os_uptime env)) true
    (addField "OS" oos true
    (addField "Memory" (memory_text memInfo) true
    (addField "Free CPU" (num_show (num_rsub100 cpuUsage) ++ "%") true
    (addField "CPU usage" (num_show cpuUsage ++ "%") true
    (addField "CPUs" (num_show (cpu_count env)) true
    (setTitle "Information" embed0))))))).

(** Lines 180-210 *)
Definition cmd_meminfo : M unit :=
  send embedLoading ;;;
  roomsUsage <- _getRoomUsageList ;;
  memInfo <- await (mem_info env) ;;
  cpuUsage <- await (cpu_usage env) ;;
  oos <- await (os_oos env) ;;
  (emit (Pidusage (Some (own_pid env))) ;;;
   serverPIDUsage <- await (pidusage env (Some (own_pid env))) ;;
   bs <- browsers ;;
   emit (MessageEdit (meminfo_embed bs roomsUsage memInfo cpuUsage oos serverPIDUsage))).

(** Lines 212-224 *)
Definition cmd_close (p : Parsed) : M unit :=
  let embed := setDescription "Unable to find room" (setTitle "Close room" embed0) in
  r <- call_close (text p) ;;
  let embed := if (r : bool) then setDescription "Room closed!" embed else embed in
  send embed.

(** [process.exit()] *)
Definition process_exit {A} : M A :=
  fun f => {| res := Exited; fleet := f; log := [ProcessExit] |}.

(** Lines 226-238.  The closures passed to [forEach] are not awaited: each
    one calls [browser.close()] and the loop goes on. *)
Definition cmd_exit : M unit :=
  send (setDescription "Closing server..." (setTitle "Closing" embed0)) ;;;
  bs <- browsers ;;
  for_each (fun b => emit (BrowserClose b)) bs ;;;
  process_exit.

(** Lines 240-251 *)
Definition cmd_eval (p : Parsed) : M unit :=
  try_catch
    (let code := JS.join " " (args p) in
     evaled <- call_eval code ;;
     emit (ChannelSendText evaled (Some "javascript")))
    (fun err => emit (ChannelSendText ("`ERROR` ```xl" ++ nl ++ err ++ nl ++ "```") None)).

(** Lines 102-253.  The tests on [command] exclude one another, so each
    handler starts from the embed of line 109. *)
Definition _command (msg : Message) : M unit :=
  if negb (JS.startsWith (content msg) (discordPrefix cfg)) then ret tt
  else
    let p := parse (discordPrefix cfg) (content msg) in
    if JS.includes (mastersDiscordId cfg) (Some (author_id msg)) then
      (when (is_cmd p "help") cmd_help ;;;
       when (is_cmd p "tokenlink") cmd_tokenlink ;;;
       flow <- (if is_cmd p "open" then cmd_open p else ret Continue) ;;
       match flow with
       | Return => ret tt
       | Continue =>
           (when (is_cmd p "info") cmd_info ;;;
            when (is_cmd p "meminfo") cmd_meminfo ;;;
            when (is_cmd p "close") (cmd_close p) ;;;
            when (is_cmd p "exit") cmd_exit ;;;
            when (is_cmd p "eval") (cmd_eval p))
       end)
    else ret tt.

(** A call of an [async] function that is not awaited: the call itself never
    throws; what it hands back is a promise, settled by the body. *)
Definition call_async (m : M unit) : M Settled :=
  fun f =>
    let o := m f in
    {| res := match res o with
              | Normal _ => Normal Fulfilled
              | Throw e => Normal (Rejected e)
              | Exited => Exited
              end;
       fleet := fleet o; log := log o |}.

(** Lines 41-47: the listener of ['message'].  Its value is the promise
    that the body creates and drops; when that promise is [Rejected], the
    rejection has no handler. *)
Definition on_message (msg : Message) : M Settled :=
  try_catch (call_async (_command msg)) (fun e => call_async (_logError e)).

End ServerPainel.

(** ** Decimal numbers

    [mant] times ten to the power minus [expo]: exact decimal arithmetic,
    the number model of the worked examples. *)

Module Dec.

Record t := {
  mant : Z;
  expo : nat
}.

Definition pow10 (k : nat) : Z := Z.pow 10 (Z.of_nat k).

Fixpoint zeros (n : nat) : string :=
  match n with
  | O => ""
  | S n' => "0" ++ zeros n'
  end.

Definition pad (k : nat) (s : string) : string :=
  zeros (k - String.length s) ++ s.

(** [m] times ten to the minus [k], written with [k] decimals. *)
Definition fixed (m : Z) (k : nat) : string :=
  let a := Z.abs m in
  (if (m <? 0)%Z then "-" else "")
    ++ JS.ofZ (a / pow10 k)
    ++ match k with
       | O => ""
       | S _ => "." ++ pad k (JS.ofZ (a mod pow10 k))
       end.

Fixpoint strip (k : nat) (m : Z) : Z * nat :=
  match k with
  | O => (m, O)
  | S k' => if (m mod 10 =? 0)%Z then strip k' (m / 10)%Z else (m, k)
  end.

Definition show (x : t) : string :=
  let (m, k) := strip (expo x) (mant x) in fixed m k.

Definition toFixed2 (x : t) : string :=
  let a := Z.abs (mant x) in
  let n := ((a * 200 + pow10 (expo x)) / (2 * pow10 (expo x)))%Z in
  (if (mant x <? 0)%Z then "-" else "") ++ fixed n 2.

Definition rsub100 (x : t) : t :=
  {| mant := 100 * pow10 (expo x) - mant x; expo := expo x |}.

Definition div1000 (x : t) : t := {| mant := mant x; expo := expo x + 3 |}.

Definition mul1e_6 (x : t) : t := {| mant := mant x; expo := expo x + 6 |}.

Definition clock (x : t) : string :=
  let s := (mant x / pow10 (expo x))%Z in
  pad 2 (JS.ofZ ((s / 3600) mod 24)) ++ ":"
    ++ pad 2 (JS.ofZ ((s / 60) mod 60)) ++ ":"
    ++ pad 2 (JS.ofZ (s mod 60)).

Definition of_Z (z : Z) : t := {| mant := z; expo := 0 |}.

End Dec.

#[global] Instance Numeric_Dec : Numeric Dec.t := {
  num_show := Dec.show;
  num_toFixed2 := Dec.toFixed2;
  num_rsub100 := Dec.rsub100;
  num_div1000 := Dec.div1000;
  num_mul1e_6 := Dec.mul1e_6;
  num_clock := Dec.clock
}.

(** ** Pieces of a string around its first space *)

(** The text before the first occurrence of [c], and the text after it
    ([None] when [c] does not occur). *)
Fixpoint first_piece (c : ascii) (s : string) : string :=
  match s with
  | EmptyString => EmptyString
  | String d s' => if Ascii.eqb d c then EmptyString else String d (first_piece c s')
  end.

Fixpoint after_first (c : ascii) (s : string) : option string :=
  match s with
  | EmptyString => None
  | String d s' => if Ascii.eqb d c then Some s' else after_first c s'
  end.

(** A word: no white space in it. *)
Fixpoint is_word (s : string) : bool :=
  match s with
  | EmptyString => true
  | String c s' => negb (JS.is_space c) && is_word s'
  end.

(** No space character in it (other white space is allowed). *)
Fixpoint no_blank (s : string) : bool :=
  match s with
  | EmptyString => true
  | String c s' => negb (Ascii.eqb c " ") && no_blank s'
  end.


(** No double quote in it. *)
Fixpoint no_quote (s : string) : bool :=
  match s with
  | EmptyString => true
  | String c s' => negb (Ascii.eqb c dquote) && no_quote s'
  end.

(** [s] between double quotes. *)
Definition quoted (s : string) : string :=
  String dquote s ++ String dquote EmptyString.

(** ** The command surface *)

(** The names listed by [help] (lines 116-123). *)
Definition command_names : list string :=
  map field_name (embed_fields help_embed).

(** The parsed command is one of the listed names. *)
Definition recognized (p : Parsed) : bool :=
  existsb (is_cmd p) command_names.

(** ** The parse, as the specification words it

    "Strips the prefix, splits on whitespace; first token (lower-cased) is
    the command name; remaining tokens are rawArgs; rawTail is the original
    trimmed text with the command name removed once." *)

(** Pieces of [s] between white-space characters. *)
Fixpoint space_split (s : string) : list string :=
  match s with
  | EmptyString => [EmptyString]
  | String c s' =>
      if JS.is_space c then EmptyString :: space_split s'
      else match space_split s' with
           | [] => [String c EmptyString]
           | t :: ts => String c t :: ts
           end
  end.

(** The tokens of [s]: its maximal runs without white space. *)
Definition tokens (s : string) : list string :=
  filter (fun w => negb (String.eqb w "")) (space_split s).

Definition spec_parse (prefix content : string) : Parsed :=
  let body := JS.trim (JS.slice (String.length prefix) content) in
  let ts := tokens body in
  {| command := option_map JS.toLowerCase (hd_error ts);
     args := tl ts;
     text := JS.replace (JS.str (hd_error ts)) "" body |}.

(** ** The inventory, as the specification words it

    "groups handles by proxyLabel (handles with None form their own group)
    and renders each group as a header line (proxyLabel) followed by its
    member titles, preserving first-seen group order." *)

(** The distinct labels, each at the place it is first seen. *)
Fixpoint first_seen (ps : list (option string)) : list (option string) :=
  match ps with
  | [] => []
  | p :: rest => p :: filter (fun q => negb (proxy_eqb p q)) (first_seen rest)
  end.

(** The rooms that carry label [p], in the order of the fleet. *)
Definition members (p : option string) (rooms : list Room) : list Room :=
  filter (fun r => proxy_eqb p (room_proxy r)) rooms.

(** One line per name. *)
Fixpoint lines (names : list string) : string :=
  match names with
  | [] => EmptyString
  | n :: rest => n ++ nl ++ lines rest
  end.

(** The group of label [p]: its member names, one per line. *)
Definition group_of (rooms : list Room) (p : option string) : ProxyRoom :=
  {| pr_text := lines (map room_name (members p rooms)); pr_proxy := p |}.

Definition spec_groups (rooms : list Room) : list ProxyRoom :=
  map (group_of rooms) (first_seen (map room_proxy rooms)).

(** ** Telemetry requests of one turn of the sampling loop *)

Definition sample_log (b : Browser) : list Event :=
  match browser_pages b with
  | Ok _ => [Pidusage (process_pid b)]
  | Err _ => []
  end.

(** A reply that carries the telemetry report: an edit of the placeholder. *)
Definition is_report (ev : Event) : bool :=
  match ev with
  | MessageEdit _ => true
  | _ => false
  end.

(** A reply of any kind to the channel. *)
Definition is_reply (ev : Event) : bool :=
  match ev with
  | ChannelSend _ | ChannelSendText _ _ | MessageEdit _ => true
  | _ => false
  end.

(** The description that the callback of [open] sets once the script is
    read (lines 158 and 160). *)
Definition open_outcome_text (r : Res (option OpenInfo)) : string :=
  match r with
  | Ok e => room_running_text e
  | Err e => "Unable to open the room!" ++ nl ++ " " ++ e
  end.

(** The reply of [close] (lines 213-221), by the answer of the server. *)
Definition close_reply (found : bool) : Embed :=
  setDescription (if found then "Room closed!" else "Unable to find room")
    (setTitle "Close room" embed0).

(** Nothing happens: no call to the outside, the fleet as it was. *)
Definition silent {A} (a : A) (f : Fleet) : Out A :=
  {| res := Normal a; fleet := f; log := [] |}.

(** ** A deployment, for worked examples *)

Module Sample.

Definition tab : string := String "009"%char EmptyString.

Definition cfg : PainelConfig :=
  {| discordToken := "discord-token";
     discordPrefix := "!";
     bots := [("alpha", "bots/alpha.js"); ("beta", "bots/beta.js")];
     mastersDiscordId := ["42"] |}.

Definition operator (s : string) : Message := {| content := s; author_id := "42" |}.
Definition stranger (s : string) : Message := {| content := s; author_id := "7" |}.

(** A room in good health: one page, whose title can be read. *)
Definition room (title : string) (proxy : option string) (pid : Z) : Browser :=
  {| browser_pages := Ok [{| page_title := Ok title |}];
     proxyServer := proxy;
     process_pid := Some pid |}.

Definition target_closed : Error :=
  "Error: Protocol error (Target.getBrowserContexts): Target closed.".

(** A room whose browser went away: [browser.pages()] rejects. *)
Definition crashed (proxy : option string) (pid : Z) : Browser :=
  {| browser_pages := Err target_closed;
     proxyServer := proxy;
     process_pid := Some pid |}.

Definition roomA : Browser := room "Room A" (Some "proxy1") 101.
Definition roomB : Browser := room "Room B" (Some "proxy1") 102.
Definition roomC : Browser := room "Room C" None 103.

Definition fleet3 : Fleet := [roomA; roomB; roomC].

Definition reading (cpu mem pid : Z) : @Status Dec.t :=
  {| status_cpu := Dec.of_Z cpu; status_memory := Dec.of_Z mem; status_pid := pid |}.

Definition opened : OpenInfo :=
  {| open_link := "https://www.haxball.com/play?c=AbCdEfGh"; open_pid := 4242 |}.

(** Process telemetry in which the process of pid [gone] has exited. *)
Definition pidusage_without (gone : Z) (pid : option Z) : Res (@Status Dec.t) :=
  match pid with
  | None => Err "Error: One of the pids provided is invalid"
  | Some n => if (n =? gone)%Z then Err "Error: No matching pid found"
              else Ok (reading 3 52428800 n)
  end.

Definition env_with (close : string -> Fleet -> Res bool * Fleet) (gone : Z) : @Env Dec.t :=
  {| server_open := fun _ _ f => (Ok (Some opened), (f ++ [room "New room" None 4242])%list);
     server_close := close;
     fs_readFile := fun p => match p with
                             | Some path => if String.eqb path "bots/alpha.js"
                                            then Ok "/* room script */"
                                            else Err "Error: ENOENT: no such file or directory"
                             | None => Err "TypeError [ERR_INVALID_ARG_TYPE]"
                             end;
     pidusage := pidusage_without gone;
     own_pid := 1;
     mem_info := Ok {| usedMemMb := Dec.of_Z 2048; totalMemMb := Dec.of_Z 8192;
                       freeMemPercentage := Dec.of_Z 75 |};
     cpu_usage := Ok (Dec.of_Z 12);
     cpu_count := Dec.of_Z 4;
     os_oos := Ok "Ubuntu 20.04";
     os_uptime := Dec.of_Z 93784;
     js_eval := fun _ f => (Ok "undefined", f);
     date_now := 1600000000000 |}.

(** The server finds no room to close; every process is alive. *)
Definition env : @Env Dec.t := env_with (fun _ f => (Ok false, f)) 0.

(** The process of [roomA] has exited. *)
Definition env_roomA_gone : @Env Dec.t := env_with (fun _ f => (Ok false, f)) 101.

(** The process of [roomB] has exited. *)
Definition env_roomB_gone : @Env Dec.t := env_with (fun _ f => (Ok false, f)) 102.

End Sample.

(** ** The dispatch, as one choice *)

Section Handler.

Context {Num : Type} {numeric : Numeric Num}.
Variable cfg : PainelConfig.
Variable env : @Env Num.

(** The handler that the tests of lines 112-240 select for a parsed
    command; for [open] the flow of control is dropped. *)
Definition handler (p : Parsed) : M unit :=
  if is_cmd p "help" then cmd_help
  else if is_cmd p "tokenlink" then cmd_tokenlink
  else if is_cmd p "open" then (cmd_open cfg env p ;;; ret tt)
  else if is_cmd p "info" then cmd_info cfg
  else if is_cmd p "meminfo" then cmd_meminfo env
  else if is_cmd p "close" then cmd_close env p
  else if is_cmd p "exit" then cmd_exit
  else if is_cmd p "eval" then cmd_eval env p
  else ret tt.

End Handler.

(** The reply of [exit] (lines 227-229). *)
Definition closing_embed : Embed :=
  setDescription "Closing server..." (setTitle "Closing" embed0).

(** The text sent when [eval] throws (line 249). *)
Definition eval_error_text (err : Error) : string :=
  "`ERROR` ```xl" ++ nl ++ err ++ nl ++ "```".

(** An event is a request for process telemetry. *)
Definition is_pidusage (ev : Event) : bool :=
  match ev with
  | Pidusage _ => true
  | _ => false
  end.

(** A computation that leaves the fleet as it finds it and makes no call
    to the outside but those that [allowed] accepts. *)
Definition confined {A} (allowed : Event -> bool) (m : M A) : Prop :=
  forall f, fleet (m f) = f /\ forallb allowed (log (m f)) = true.

(** No event at all is accepted. *)
Definition no_event (ev : Event) : bool := false.

(** Every character is in the ASCII range, where [JS.trim] and
    [JS.toLowerCase] are those of JavaScript. *)
Fixpoint is_ascii (s : string) : bool :=
  match s with
  | EmptyString => true
  | String c s' => (nat_of_ascii c <? 128)%nat && is_ascii s'
  end.

(** ** The token of [open], as the specification words it

    "the raw second argument text with every double-quote character
    removed and the literal prefix "Token obtained: " removed": the text
    that follows the bot name, empty when nothing follows it. *)
Definition second_argument (body : string) : string :=
  match after_first " " body with
  | None => EmptyString
  | Some r => match after_first " " r with
              | None => EmptyString
              | Some t => t
              end
  end.

Definition spec_open_token (prefix content : string) : string :=
  JS.replace "Token obtained: " ""
    (JS.removeAll dquote
       (second_argument (JS.trim (JS.slice (String.length prefix) content)))).

(** An event is the exit of the process. *)
Definition is_exit (ev : Event) : bool :=
  match ev with
  | ProcessExit => true
  | _ => false
  end.

(** The sample deployment with an [eval] that throws. *)
Definition env_eval_throws : @Env Dec.t :=
  {| server_open := server_open Sample.env;
     server_close := server_close Sample.env;
     fs_readFile := fs_readFile Sample.env;
     pidusage := pidusage Sample.env;
     own_pid := own_pid Sample.env;
     mem_info := mem_info Sample.env;
     cpu_usage := cpu_usage Sample.env;
     cpu_count := cpu_count Sample.env;
     os_oos := os_oos Sample.env;
     os_uptime := os_uptime Sample.env;
     js_eval := fun _ f => (Err "ReferenceError: rooms is not defined", f);
     date_now := date_now Sample.env |}.
(** * Properties *)

(** ** Strings *)

Lemma prefix_app (p s : string) : String.prefix p (p ++ s) = true.
Proof.
  induction p as [|a p IH]; simpl.
  - destruct s; reflexivity.
  - destruct (ascii_dec a a) as [_|N]; [exact IH | now elim N].
Qed.

Lemma prefix_app_startsWith (p s : string) : JS.startsWith (p ++ s) p = true.
Proof. apply prefix_app. Qed.

Lemma slice_length_app (p s : string) : JS.slice (String.length p) (p ++ s) = s.
Proof.
  induction p as [|a p IH]; simpl; [now destruct s | exact IH].
Qed.

Lemma prefix_length (p s : string) :
  String.prefix p s = true -> String.length p <= String.length s.
Proof.
  revert s; induction p as [|a p IH]; intros [|b s]; simpl; try lia; try discriminate.
  destruct (ascii_dec a b); [|discriminate].
  intros H. apply IH in H. lia.
Qed.

Lemma replace_unfold (pat rep s : string) :
  JS.replace pat rep s =
  if String.prefix pat s then rep ++ JS.slice (String.length pat) s
  else match s with
       | EmptyString => EmptyString
       | String c s' => String c (JS.replace pat rep s')
       end.
Proof. destruct s; reflexivity. Qed.

(** An occurrence at the very start is the first one. *)
Lemma replace_head (p s : string) : JS.replace p "" (p ++ s) = s.
Proof.
  rewrite replace_unfold, prefix_app, slice_length_app. reflexivity.
Qed.

(** A pattern longer than the text does not occur in it. *)
Lemma replace_longer (pat rep s : string) :
  String.length s < String.length pat -> JS.replace pat rep s = s.
Proof.
  induction s as [|c s IH]; intros H; rewrite replace_unfold.
  - destruct (String.prefix pat "") eqn:E; [|reflexivity].
    apply prefix_length in E. lia.
  - destruct (String.prefix pat (String c s)) eqn:E.
    + apply prefix_length in E. lia.
    + f_equal. apply IH. simpl in H. lia.
Qed.

Lemma length_app (a b : string) :
  String.length (a ++ b) = String.length a + String.length b.
Proof. induction a as [|c a IH]; simpl; [reflexivity | now rewrite IH]. Qed.

Lemma append_assoc (a b c : string) : (a ++ b) ++ c = a ++ (b ++ c).
Proof. induction a as [|x a IH]; simpl; [reflexivity | now rewrite IH]. Qed.

Lemma split_first (c : ascii) (s : string) :
  JS.split c s =
  first_piece c s :: match after_first c s with
                     | None => []
                     | Some r => JS.split c r
                     end.
Proof.
  induction s as [|d s IH]; simpl; [reflexivity|].
  destruct (Ascii.eqb d c); [reflexivity|].
  rewrite IH. reflexivity.
Qed.

Lemma after_first_some (c : ascii) (s r : string) :
  after_first c s = Some r -> s = first_piece c s ++ String c r.
Proof.
  induction s as [|d s IH]; simpl; [discriminate|].
  destruct (Ascii.eqb_spec d c) as [->|N].
  - intros [= ->]. reflexivity.
  - intros H. simpl. f_equal. exact (IH H).
Qed.

Lemma after_first_none (c : ascii) (s : string) :
  after_first c s = None -> first_piece c s = s.
Proof.
  induction s as [|d s IH]; simpl; [reflexivity|].
  destruct (Ascii.eqb d c); [discriminate|].
  intros H. f_equal. exact (IH H).
Qed.

(** Line 106: removing the first piece and the space after it leaves the
    text after the first space; without a space nothing is removed. *)
Lemma replace_first_piece (s : string) :
  JS.replace (first_piece " " s ++ " ") "" s =
  match after_first " " s with
  | None => s
  | Some r => r
  end.
Proof.
  destruct (after_first " " s) as [r|] eqn:E.
  - pose proof (after_first_some _ _ _ E) as Hs.
    rewrite Hs at 2.
    change (String " " r) with (" " ++ r).
    rewrite <- append_assoc. apply replace_head.
  - rewrite (after_first_none _ _ E).
    apply replace_longer. rewrite length_app. simpl. lia.
Qed.

Lemma first_piece_app (c : ascii) (w s : string) :
  after_first c w = None -> first_piece c (w ++ String c s) = w.
Proof.
  induction w as [|d w IH]; simpl.
  - now rewrite Ascii.eqb_refl.
  - destruct (Ascii.eqb d c); [discriminate|].
    intros H. f_equal. exact (IH H).
Qed.

Lemma after_first_app (c : ascii) (w s : string) :
  after_first c w = None -> after_first c (w ++ String c s) = Some s.
Proof.
  induction w as [|d w IH]; simpl.
  - now rewrite Ascii.eqb_refl.
  - destruct (Ascii.eqb d c); [discriminate | exact IH].
Qed.

Lemma no_blank_after_first (s : string) :
  no_blank s = true -> after_first " " s = None.
Proof.
  induction s as [|d s IH]; simpl; [reflexivity|].
  destruct (Ascii.eqb d " "); simpl; [discriminate | exact IH].
Qed.

Lemma is_word_no_blank (s : string) : is_word s = true -> no_blank s = true.
Proof.
  induction s as [|d s IH]; simpl; [reflexivity|].
  intros H. apply andb_prop in H as [Hd Hs].
  rewrite (IH Hs), andb_true_r.
  destruct (Ascii.eqb_spec d " ") as [->|]; [discriminate Hd | reflexivity].
Qed.

Lemma trimStart_word (s : string) : is_word s = true -> JS.trimStart s = s.
Proof.
  destruct s as [|c s]; simpl; [reflexivity|].
  destruct (JS.is_space c); [discriminate | reflexivity].
Qed.

Lemma trimEnd_word (s : string) : is_word s = true -> JS.trimEnd s = s.
Proof.
  induction s as [|c s IH]; [reflexivity|].
  intros H. simpl in H. apply andb_prop in H as [Hc Hs].
  simpl. rewrite (IH Hs).
  destruct s; [|reflexivity].
  destruct (JS.is_space c); [discriminate | reflexivity].
Qed.

Lemma trim_word (s : string) : is_word s = true -> JS.trim s = s.
Proof.
  intros H. unfold JS.trim. rewrite (trimStart_word _ H). now apply trimEnd_word.
Qed.

(** The parse of a message, in terms of the first space of its trimmed
    body. *)
Lemma parse_first_space (prefix rest : string) :
  parse prefix (prefix ++ rest) =
  {| command := Some (JS.toLowerCase (first_piece " " (JS.trim rest)));
     args := match after_first " " (JS.trim rest) with
             | None => []
             | Some r => JS.split " " r
             end;
     text := match after_first " " (JS.trim rest) with
             | None => JS.trim rest
             | Some r => r
             end |}.
Proof.
  unfold parse. rewrite slice_length_app, split_first. simpl.
  rewrite replace_first_piece. reflexivity.
Qed.

(** ** The monad *)

Lemma bind_ret_l {A B} (a : A) (k : A -> M B) (f : Fleet) :
  bind (ret a) k f = k a f.
Proof. unfold bind, ret. simpl. now destruct (k a f). Qed.

Lemma bind_normal {A B} (m : M A) (k : A -> M B) (f f' : Fleet) (a : A) (l : list Event) :
  m f = {| res := Normal a; fleet := f'; log := l |} ->
  bind m k f =
    {| res := res (k a f'); fleet := fleet (k a f'); log := (l ++ log (k a f'))%list |}.
Proof. intros H. unfold bind. now rewrite H. Qed.

Lemma bind_throw {A B} (m : M A) (k : A -> M B) (f f' : Fleet) (e : Error) (l : list Event) :
  m f = {| res := Throw e; fleet := f'; log := l |} ->
  bind m k f = {| res := Throw e; fleet := f'; log := l |}.
Proof. intros H. unfold bind. now rewrite H. Qed.

Lemma when_false (m : M unit) : when false m = ret tt.
Proof. reflexivity. Qed.

Lemma is_cmd_true (p : Parsed) (name : string) :
  is_cmd p name = true -> command p = Some name.
Proof.
  unfold is_cmd. destruct (command p) as [c|]; [|discriminate].
  intros H. apply String.eqb_eq in H. now subst.
Qed.

Lemma is_cmd_command (p : Parsed) (c name : string) :
  command p = Some c -> is_cmd p name = String.eqb c name.
Proof. unfold is_cmd. now intros ->. Qed.

(** A parsed command outside the listed names matches none of the tests of
    [_command]. *)
Lemma unrecognized_tests (p : Parsed) :
  recognized p = false ->
  is_cmd p "help" = false /\ is_cmd p "tokenlink" = false /\
  is_cmd p "open" = false /\ is_cmd p "info" = false /\
  is_cmd p "meminfo" = false /\ is_cmd p "close" = false /\
  is_cmd p "exit" = false /\ is_cmd p "eval" = false.
Proof.
  unfold recognized.
  change command_names
    with ["help"; "info"; "meminfo"; "open"; "close"; "exit"; "eval"; "tokenlink"].
  cbn [existsb]. intros H.
  repeat (apply orb_false_elim in H; destruct H as [? H]).
  repeat split; assumption.
Qed.

(** ** Dispatch *)

Section Dispatch.

Context {Num : Type} {numeric : Numeric Num}.
Variable cfg : PainelConfig.
Variable env : @Env Num.

Lemma command_not_prefixed (msg : Message) (f : Fleet) :
  JS.startsWith (content msg) (discordPrefix cfg) = false ->
  _command cfg env msg f = silent tt f.
Proof. intros H. unfold _command. now rewrite H. Qed.

Lemma command_unauthorized (msg : Message) (f : Fleet) :
  JS.includes (mastersDiscordId cfg) (Some (author_id msg)) = false ->
  _command cfg env msg f = silent tt f.
Proof.
  intros H. unfold _command.
  destruct (JS.startsWith _ _); cbn [negb]; [|reflexivity].
  now rewrite H.
Qed.

Lemma command_unrecognized (msg : Message) (f : Fleet) :
  recognized (parse (discordPrefix cfg) (content msg)) = false ->
  _command cfg env msg f = silent tt f.
Proof.
  intros H. unfold _command.
  destruct (JS.startsWith _ _); cbn [negb]; [|reflexivity].
  destruct (JS.includes _ _); [|reflexivity].
  apply unrecognized_tests in H.
  destruct H as (H1 & H2 & H3 & H4 & H5 & H6 & H7 & H8).
  rewrite H1, H2, H3, H4, H5, H6, H7, H8. reflexivity.
Qed.

(** The listener's [catch] clause is never entered: the call on line 43
    hands back a promise and does not throw. *)
Lemma listener_runs_command (msg : Message) (f : Fleet) :
  on_message cfg env msg f = call_async (_command cfg env msg) f.
Proof.
  unfold on_message, try_catch, call_async. simpl.
  destruct (res (_command cfg env msg f)); reflexivity.
Qed.

Lemma listener_silent (msg : Message) (f : Fleet) :
  _command cfg env msg f = silent tt f ->
  on_message cfg env msg f = silent Fulfilled f.
Proof.
  intros H. rewrite listener_runs_command. unfold call_async. now rewrite H.
Qed.

(** A failure of the handler leaves the listener as a rejected promise that
    nothing handles; [_logError] is not called. *)
Lemma listener_drops_failure (msg : Message) (f : Fleet) (e : Error) :
  res (_command cfg env msg f) = Throw e ->
  on_message cfg env msg f =
    {| res := Normal (Rejected e);
       fleet := fleet (_command cfg env msg f);
       log := log (_command cfg env msg f) |}.
Proof.
  intros H. rewrite listener_runs_command. unfold call_async. now rewrite H.
Qed.

(** C4.  An [open] command from an operator whose bot name is not a key of
    the catalogue: the only call to the outside is the reply "This bot does
    not exist...", so no file is read and no room is spawned, and the fleet
    is the one before the command. *)
Theorem open_unknown_bot (msg : Message) (f : Fleet) :
  JS.startsWith (content msg) (discordPrefix cfg) = true ->
  JS.includes (mastersDiscordId cfg) (Some (author_id msg)) = true ->
  is_cmd (parse (discordPrefix cfg) (content msg)) "open" = true ->
  JS.includes (bots_keys cfg)
    (hd_error (args (parse (discordPrefix cfg) (content msg)))) = false ->
  _command cfg env msg f =
    {| res := Normal tt;
       fleet := f;
       log := [ChannelSend (setDescription (unknown_bot_text cfg)
                              (setTitle "Open room" embed0))] |}.
Proof.
  intros Hp Ha Hc Hb. unfold _command. rewrite Hp, Ha. cbv zeta. simpl negb. cbv iota.
  remember (parse (discordPrefix cfg) (content msg)) as p eqn:Ep.
  pose proof (is_cmd_true _ _ Hc) as Hcmd.
  rewrite !(is_cmd_command _ _ _ Hcmd).
  unfold cmd_open. rewrite Hb. reflexivity.
Qed.

(** C5.  A message from a sender outside the allow-list is handled in
    silence: the listener makes no call to the outside (no reply), its
    promise is fulfilled (no error) and the fleet is untouched; a message
    from an operator whose command is none of the listed names has the very
    same outcome. *)
Theorem unauthorized_is_silent (msg msg' : Message) (f : Fleet) :
  JS.includes (mastersDiscordId cfg) (Some (author_id msg)) = false ->
  JS.includes (mastersDiscordId cfg) (Some (author_id msg')) = true ->
  recognized (parse (discordPrefix cfg) (content msg')) = false ->
  on_message cfg env msg f = {| res := Normal Fulfilled; fleet := f; log := [] |} /\
  on_message cfg env msg' f = on_message cfg env msg f.
Proof.
  intros Hu _ Hr.
  pose proof (listener_silent _ _ (command_unauthorized msg f Hu)) as H1.
  pose proof (listener_silent _ _ (command_unrecognized msg' f Hr)) as H2.
  split; [exact H1 | now rewrite H1, H2].
Qed.

(** C10.  For an operator, the command name [tokenlink] is dispatched: the
    reply is the fixed embed titled "Headless Token" that links to the
    headless-token page, and nothing else happens.  The name stands in the
    list shown by [help], next to help, info, meminfo, open, close, exit
    and eval. *)
Theorem tokenlink_replies (msg : Message) (f : Fleet) :
  JS.startsWith (content msg) (discordPrefix cfg) = true ->
  JS.includes (mastersDiscordId cfg) (Some (author_id msg)) = true ->
  is_cmd (parse (discordPrefix cfg) (content msg)) "tokenlink" = true ->
  _command cfg env msg f =
    {| res := Normal tt;
       fleet := f;
       log := [ChannelSend
                 (setDescription "[Click here.](https://www.haxball.com/headlesstoken)"
                    (setTitle "Headless Token" embed0))] |}
  /\ command_names =
       ["help"; "info"; "meminfo"; "open"; "close"; "exit"; "eval"; "tokenlink"].
Proof.
  intros Hp Ha Hc. split; [|reflexivity].
  unfold _command. rewrite Hp, Ha. cbv zeta. simpl negb. cbv iota.
  remember (parse (discordPrefix cfg) (content msg)) as p eqn:Ep.
  pose proof (is_cmd_true _ _ Hc) as Hcmd.
  rewrite !(is_cmd_command _ _ _ Hcmd).
  reflexivity.
Qed.

End Dispatch.

(** ** The inventory: grouping by proxy *)

Lemma proxy_eqb_spec (a b : option string) : reflect (a = b) (proxy_eqb a b).
Proof.
  destruct a as [x|], b as [y|]; simpl; try (constructor; congruence).
  destruct (String.eqb_spec x y); constructor; congruence.
Qed.

Lemma proxy_eqb_refl (a : option string) : proxy_eqb a a = true.
Proof. now destruct (proxy_eqb_spec a a). Qed.

Lemma proxy_eqb_sym (a b : option string) : proxy_eqb a b = proxy_eqb b a.
Proof.
  destruct (proxy_eqb_spec a b), (proxy_eqb_spec b a); congruence.
Qed.

Lemma append_empty_r (s : string) : s ++ "" = s.
Proof. induction s as [|c s IH]; simpl; [reflexivity | now rewrite IH]. Qed.

Lemma lines_app (a b : list string) : lines (a ++ b) = lines a ++ lines b.
Proof.
  induction a as [|n a IH]; simpl; [reflexivity|].
  now rewrite IH, !append_assoc.
Qed.

Lemma existsb_In (p : option string) (ps : list (option string)) :
  existsb (proxy_eqb p) ps = true <-> In p ps.
Proof.
  rewrite existsb_exists. split.
  - intros (q & Hq & E). now destruct (proxy_eqb_spec p q); subst.
  - intros H. exists p. split; [exact H | apply proxy_eqb_refl].
Qed.

Lemma first_seen_In (p : option string) (ps : list (option string)) :
  In p (first_seen ps) <-> In p ps.
Proof.
  induction ps as [|q ps IH]; simpl; [tauto|].
  rewrite filter_In, IH.
  destruct (proxy_eqb_spec q p) as [->|N]; simpl; intuition congruence.
Qed.

Lemma first_seen_NoDup (ps : list (option string)) : NoDup (first_seen ps).
Proof.
  induction ps as [|q ps IH]; simpl; constructor.
  - rewrite filter_In, proxy_eqb_refl. simpl. intros [_ H]. discriminate.
  - now apply NoDup_filter.
Qed.

(** A label seen for the first time goes to the end; one seen before
    changes nothing. *)
Lemma first_seen_snoc (ps : list (option string)) (p : option string) :
  first_seen (ps ++ [p]) =
  if existsb (proxy_eqb p) ps then first_seen ps else (first_seen ps ++ [p])%list.
Proof.
  induction ps as [|q ps IH]; simpl; [reflexivity|].
  rewrite IH. destruct (proxy_eqb_spec p q) as [->|N]; simpl.
  - destruct (existsb (proxy_eqb q) ps); [reflexivity|].
    rewrite filter_app. simpl. rewrite proxy_eqb_refl. simpl.
    now rewrite app_nil_r.
  - destruct (existsb (proxy_eqb p) ps); [reflexivity|].
    rewrite filter_app. simpl.
    destruct (proxy_eqb_spec q p) as [E|_]; [now elim N | reflexivity].
Qed.

Lemma members_absent (p : option string) (rooms : list Room) :
  existsb (proxy_eqb p) (map room_proxy rooms) = false -> members p rooms = [].
Proof.
  induction rooms as [|r rooms IH]; simpl; [reflexivity|].
  intros H. apply orb_false_elim in H as [H1 H2].
  rewrite H1. exact (IH H2).
Qed.

Lemma group_of_snoc (rooms : list Room) (r : Room) (p : option string) :
  group_of (rooms ++ [r]) p =
  if proxy_eqb p (room_proxy r)
  then {| pr_text := pr_text (group_of rooms p) ++ room_name r ++ nl; pr_proxy := p |}
  else group_of rooms p.
Proof.
  unfold group_of, members. rewrite filter_app, map_app, lines_app. simpl.
  destruct (proxy_eqb p (room_proxy r)); simpl.
  - reflexivity.
  - now rewrite append_empty_r.
Qed.

(** [add_room] on the groups of [rooms], when the label of the new room has
    a group already: that group, and no other, gets the name. *)
Lemma add_room_seen (rooms : list Room) (r : Room) (ls : list (option string)) :
  NoDup ls ->
  existsb (proxy_eqb (room_proxy r)) ls = true ->
  add_room r (map (group_of rooms) ls) = map (group_of (rooms ++ [r])) ls.
Proof.
  induction ls as [|l ls IH]; simpl; [discriminate|].
  intros ND H. inversion ND as [|? ? Hl ND']; subst.
  rewrite (group_of_snoc rooms r l).
  destruct (proxy_eqb_spec l (room_proxy r)) as [E|N].
  - f_equal. apply map_ext_in. intros p Hp.
    rewrite group_of_snoc.
    destruct (proxy_eqb_spec p (room_proxy r)) as [E'|_]; [|reflexivity].
    elim Hl. congruence.
  - f_equal. apply IH; [exact ND'|].
    rewrite proxy_eqb_sym in H.
    destruct (proxy_eqb_spec l (room_proxy r)); [contradiction | exact H].
Qed.

(** ... and when the label is new: a group is pushed at the end. *)
Lemma add_room_new (rooms : list Room) (r : Room) (ls : list (option string)) :
  existsb (proxy_eqb (room_proxy r)) ls = false ->
  add_room r (map (group_of rooms) ls) =
  (map (group_of (rooms ++ [r])) ls
     ++ [{| pr_text := room_name r ++ nl; pr_proxy := room_proxy r |}])%list.
Proof.
  induction ls as [|l ls IH]; simpl; [reflexivity|].
  intros H. apply orb_false_elim in H as [H1 H2].
  rewrite (group_of_snoc rooms r l), proxy_eqb_sym, H1.
  now rewrite (IH H2).
Qed.

Lemma spec_groups_snoc (rooms : list Room) (r : Room) :
  spec_groups (rooms ++ [r]) = add_room r (spec_groups rooms).
Proof.
  unfold spec_groups. rewrite map_app. simpl. rewrite first_seen_snoc.
  destruct (existsb (proxy_eqb (room_proxy r)) (map room_proxy rooms)) eqn:E.
  - symmetry. apply add_room_seen; [apply first_seen_NoDup|].
    apply (proj2 (existsb_In _ _)), (proj2 (first_seen_In _ _)).
    exact (proj1 (existsb_In _ _) E).
  - rewrite map_app. simpl. symmetry. rewrite add_room_new.
    + f_equal. f_equal. rewrite group_of_snoc, proxy_eqb_refl.
      unfold group_of. now rewrite (members_absent _ _ E).
    + destruct (existsb (proxy_eqb (room_proxy r)) (first_seen (map room_proxy rooms))) eqn:E';
        [|reflexivity].
      apply (proj1 (existsb_In _ _)), (proj1 (first_seen_In _ _)) in E'.
      apply (proj2 (existsb_In _ _)) in E'. congruence.
Qed.

(** The loop of lines 77-85 computes the groups of the specification. *)
Lemma proxyRooms_spec_groups (rooms : list Room) : proxyRooms rooms = spec_groups rooms.
Proof.
  induction rooms as [|r rooms IH] using rev_ind; [reflexivity|].
  unfold proxyRooms in *. rewrite fold_left_app. simpl.
  now rewrite IH, spec_groups_snoc.
Qed.

Lemma read_room_out (b : Browser) (f : Fleet) :
  read_room b f = {| res := res (read_room b []); fleet := f; log := [] |}.
Proof.
  unfold read_room, bind, await, title_of.
  destruct (browser_pages b) as [ps|e]; simpl; [|reflexivity].
  destruct (hd_error ps) as [pg|]; simpl; [|reflexivity].
  destruct (page_title pg); reflexivity.
Qed.

Lemma read_room_proxy (b : Browser) (f : Fleet) (r : Room) :
  res (read_room b f) = Normal r -> room_proxy r = proxyServer b.
Proof.
  unfold read_room, bind, await, title_of.
  destruct (browser_pages b) as [ps|e]; simpl; [|discriminate].
  destruct (hd_error ps) as [pg|]; simpl; [|discriminate].
  destruct (page_title pg); simpl; [|discriminate].
  now intros [= <-].
Qed.

(** The name of a room is its title followed by the pid between
    parentheses. *)
Lemma read_room_name (b : Browser) (f : Fleet) (r : Room) :
  res (read_room b f) = Normal r ->
  exists pg rest t,
    browser_pages b = Ok (pg :: rest) /\ page_title pg = Ok t /\
    room_name r = t ++ " (" ++ JS.ofZopt (process_pid b) ++ ")".
Proof.
  unfold read_room, bind, await, title_of.
  destruct (browser_pages b) as [[|pg rest]|e]; simpl; try discriminate.
  destruct (page_title pg) as [t|e] eqn:Et; simpl; [|discriminate].
  intros [= <-]. exists pg, rest, t. repeat split. exact Et.
Qed.

Lemma for_each_read_room (bs : Fleet) (rooms : list Room) (f : Fleet) :
  Forall2 (fun b r => res (read_room b f) = Normal r) bs rooms ->
  for_each read_room bs f = {| res := Normal rooms; fleet := f; log := [] |}.
Proof.
  induction 1 as [|b r bs rooms Hb _ IH]; [reflexivity|].
  assert (Hb' : read_room b f = {| res := Normal r; fleet := f; log := [] |}).
  { rewrite read_room_out in Hb |- *. simpl in Hb. now rewrite Hb. }
  simpl. rewrite (bind_normal _ _ _ _ _ _ Hb'), (bind_normal _ _ _ _ _ _ IH).
  reflexivity.
Qed.

Lemma rooms_proxies (bs : Fleet) (rooms : list Room) (f : Fleet) :
  Forall2 (fun b r => res (read_room b f) = Normal r) bs rooms ->
  map room_proxy rooms = map proxyServer bs.
Proof.
  induction 1 as [|b r bs rooms Hb _ IH]; [reflexivity|].
  simpl. now rewrite (read_room_proxy _ _ _ Hb), IH.
Qed.

Lemma forallb_room_proxy (rooms : list Room) :
  forallb (fun r => is_null (room_proxy r)) rooms = forallb is_null (map room_proxy rooms).
Proof. induction rooms as [|r rooms IH]; simpl; [reflexivity | now rewrite IH]. Qed.

Lemma some_proxy (bs : Fleet) :
  existsb (fun b => negb (is_null (proxyServer b))) bs = true ->
  forallb is_null (map proxyServer bs) = false.
Proof.
  induction bs as [|b bs IH]; simpl; [discriminate|].
  destruct (is_null (proxyServer b)); simpl; [exact IH | reflexivity].
Qed.

(** C7.  A fleet whose titles can all be read and in which at least one room
    has a proxy label: the inventory is one entry per label, the labels in
    the order they are first seen in the fleet, rooms without label being a
    group of their own; an entry is the header line (a bullet and the
    label) followed by one line per member, "title (pid)", in the order of
    the fleet; entries are joined by a line feed. *)
Theorem inventory_groups_by_proxy (bs : Fleet) (rooms : list Room) :
  Forall2 (fun b r => res (read_room b bs) = Normal r) bs rooms ->
  existsb (fun b => negb (is_null (proxyServer b))) bs = true ->
  _getRoomNameList bs =
    {| res := Normal (JS.join nl
                  (map (fun p => "• " ++ JS.str p ++ nl
                                   ++ lines (map room_name (members p rooms)))
                       (first_seen (map proxyServer bs))));
       fleet := bs;
       log := [] |}.
Proof.
  intros Hr Hp.
  pose proof (rooms_proxies _ _ _ Hr) as Hpx.
  unfold _getRoomNameList, browsers, bind. simpl.
  rewrite (for_each_read_room _ _ _ Hr). simpl.
  unfold roomNameList.
  assert (Hn : forallb (fun r => is_null (room_proxy r)) rooms = false).
  { rewrite forallb_room_proxy, Hpx. now apply some_proxy. }
  destruct rooms as [|r0 rooms0]; [discriminate Hn|].
  cbn [List.length Nat.eqb]. rewrite Hn, proxyRooms_spec_groups.
  unfold spec_groups. rewrite Hpx, map_map. reflexivity.
Qed.

(** C7, the scenario: Room A and Room B behind proxy1, Room C without
    proxy. *)
Lemma inventory_scenario :
  _getRoomNameList Sample.fleet3 =
    {| res := Normal ("• proxy1" ++ nl ++ "Room A (101)" ++ nl ++ "Room B (102)" ++ nl
                        ++ nl
                        ++ "• undefined" ++ nl ++ "Room C (103)" ++ nl);
       fleet := Sample.fleet3;
       log := [] |}.
Proof.
  apply (inventory_groups_by_proxy Sample.fleet3
           [ {| room_name := "Room A (101)"; room_proxy := Some "proxy1" |};
             {| room_name := "Room B (102)"; room_proxy := Some "proxy1" |};
             {| room_name := "Room C (103)"; room_proxy := None |} ]).
  - repeat constructor.
  - reflexivity.
Defined.

(** ** Handlers *)

Section Handlers.

Context {Num : Type} {numeric : Numeric Num}.
Variable cfg : PainelConfig.
Variable env : @Env Num.

(** [open] with a known bot whose script can be read: the script is read,
    the room is spawned with the token of line 139, and the one reply tells
    how the spawn went.  The reply is the same whether or not the
    missing-token text was set on line 148. *)
Lemma cmd_open_known (p : Parsed) (data : string) (f : Fleet) :
  JS.includes (bots_keys cfg) (hd_error (args p)) = true ->
  fs_readFile env (bots_get (bots cfg) (hd_error (args p))) = Ok data ->
  cmd_open cfg env p f =
    {| res := Normal Continue;
       fleet := snd (server_open env data (open_token p) f);
       log := [FsReadFile (bots_get (bots cfg) (hd_error (args p)));
               ServerOpen data (open_token p);
               ChannelSend
                 (setDescription
                    (open_outcome_text (fst (server_open env data (open_token p) f)))
                    (setTitle "Open room" embed0))] |}.
Proof.
  intros Hk Hr. unfold cmd_open. rewrite Hk. cbn [negb]. cbv zeta.
  unfold open_callback. rewrite Hr.
  unfold call_open, try_catch, bind, emit, send, ret. cbn.
  destruct (server_open env data (open_token p) f) as [[o|e] f'];
    destruct (String.eqb (open_token p) ""); reflexivity.
Qed.

(** [open] with a known bot whose script cannot be read: no spawn, and the
    reply is the read error. *)
Lemma cmd_open_unreadable (p : Parsed) (err : Error) (f : Fleet) :
  JS.includes (bots_keys cfg) (hd_error (args p)) = true ->
  fs_readFile env (bots_get (bots cfg) (hd_error (args p))) = Err err ->
  cmd_open cfg env p f =
    {| res := Normal Continue;
       fleet := f;
       log := [FsReadFile (bots_get (bots cfg) (hd_error (args p)));
               ChannelSend (setDescription ("Error: " ++ err)
                              (setTitle "Open room" embed0))] |}.
Proof.
  intros Hk Hr. unfold cmd_open. rewrite Hk. cbn [negb]. cbv zeta.
  unfold open_callback. rewrite Hr.
  destruct (String.eqb (open_token p) ""); reflexivity.
Qed.

(** Whatever [open] sends, it is not the missing-token text of line 148. *)
Lemma open_never_sends_warning (p : Parsed) (f : Fleet) (e : Embed) :
  In (ChannelSend e) (log (cmd_open cfg env p f)) ->
  embed_description e <> Some (missing_token_text cfg).
Proof.
  destruct (JS.includes (bots_keys cfg) (hd_error (args p))) eqn:Hk.
  - destruct (fs_readFile env (bots_get (bots cfg) (hd_error (args p)))) as [data|err] eqn:Hr.
    + rewrite (cmd_open_known _ _ _ Hk Hr). cbn [log In].
      intros [H|[H|[H|[]]]]; try discriminate H.
      injection H as <-. cbn [embed_description setDescription].
      destruct (fst (server_open env data (open_token p) f)); discriminate.
    + rewrite (cmd_open_unreadable _ _ _ Hk Hr). cbn [log In].
      intros [H|[H|[]]]; try discriminate H.
      injection H as <-. discriminate.
  - unfold cmd_open. rewrite Hk. cbn.
    intros [H|[]]. injection H as <-. discriminate.
Qed.


(** The parse of [<cmd> <bot> <rest>]. *)
Lemma parse_three (prefix raw cmd bot rest : string) :
  JS.trim raw = cmd ++ " " ++ bot ++ " " ++ rest ->
  no_blank cmd = true ->
  no_blank bot = true ->
  parse prefix (prefix ++ raw) =
    {| command := Some (JS.toLowerCase cmd);
       args := bot :: JS.split " " rest;
       text := bot ++ " " ++ rest |}.
Proof.
  intros Ht Hc Hb. rewrite parse_first_space, Ht.
  change (cmd ++ " " ++ bot ++ " " ++ rest) with (cmd ++ String " " (bot ++ String " " rest)).
  rewrite first_piece_app, after_first_app by now apply no_blank_after_first.
  rewrite split_first.
  rewrite first_piece_app, after_first_app by now apply no_blank_after_first.
  reflexivity.
Qed.

(** The parse of a bare word. *)
Lemma parse_word (prefix name : string) :
  is_word name = true ->
  parse prefix (prefix ++ name) =
    {| command := Some (JS.toLowerCase name); args := []; text := name |}.
Proof.
  intros Hw. rewrite parse_first_space, (trim_word _ Hw).
  pose proof (no_blank_after_first _ (is_word_no_blank _ Hw)) as Hn.
  now rewrite Hn, (after_first_none _ _ Hn).
Qed.

(** C8.  A message that is the prefix followed by one word: the tail
    computed on line 106 is that word itself (the command name as typed),
    not the empty string.  Hence, from an operator, a bare [close] calls
    [this._server.close] with the word itself as target - the literal word
    "close" when that is what was typed - and the reply tells what the
    server answered. *)
Theorem bare_command_tail (name author : string) (f : Fleet) :
  is_word name = true ->
  name <> "" ->
  let msg := {| content := discordPrefix cfg ++ name; author_id := author |} in
  let p := parse (discordPrefix cfg) (content msg) in
  (command p = Some (JS.toLowerCase name) /\ args p = [] /\
   text p = name /\ text p <> "")
  /\ (JS.includes (mastersDiscordId cfg) (Some author) = true ->
      JS.toLowerCase name = "close" ->
      log (_command cfg env msg f) =
        ServerClose name ::
          match fst (server_close env name f) with
          | Ok found => [ChannelSend (close_reply found)]
          | Err _ => []
          end).
Proof.
  intros Hw Hne. cbv zeta. cbn [content author_id].
  rewrite (parse_word _ _ Hw). cbn [command args text].
  split; [repeat split; assumption|].
  intros Ha Hl. unfold _command. cbn [content author_id].
  rewrite prefix_app_startsWith, Ha, (parse_word _ _ Hw), Hl.
  cbv zeta. cbn [negb].
  unfold is_cmd. cbn [command text].
  change (String.eqb "close" "help") with false.
  change (String.eqb "close" "tokenlink") with false.
  change (String.eqb "close" "open") with false.
  change (String.eqb "close" "info") with false.
  change (String.eqb "close" "meminfo") with false.
  change (String.eqb "close" "close") with true.
  change (String.eqb "close" "exit") with false.
  change (String.eqb "close" "eval") with false.
  cbv iota. rewrite !when_false, !bind_ret_l. unfold when.
  unfold cmd_close, call_close, bind, emit, send, ret. cbn.
  destruct (server_close env name f) as [[[|]|e] f']; reflexivity.
Qed.


End Handlers.

(** ** Telemetry *)

Section Telemetry.

Context {Num : Type} {numeric : Numeric Num}.
Variable cfg : PainelConfig.
Variable env : @Env Num.

(** One turn of the sampling loop leaves the fleet alone; it asks for the
    process telemetry once the pages are known. *)
Lemma sample_room_out (b : Browser) (f : Fleet) :
  sample_room env b f =
    {| res := res (sample_room env b []); fleet := f; log := sample_log b |}.
Proof.
  unfold sample_room, sample_log, bind, await, emit, title_of.
  destruct (browser_pages b) as [ps|e]; cbn; [|reflexivity].
  destruct (pidusage env (process_pid b)) as [st|e]; cbn; [|reflexivity].
  destruct (hd_error ps) as [pg|]; cbn; [|reflexivity].
  destruct (page_title pg); reflexivity.
Qed.

Lemma sample_room_normal (b : Browser) (f : Fleet) (u : RoomUsage) :
  res (sample_room env b f) = Normal u ->
  sample_room env b f = {| res := Normal u; fleet := f; log := sample_log b |}.
Proof.
  intros H. rewrite sample_room_out in H |- *. cbn in H. now rewrite H.
Qed.

Lemma sample_room_throw (b : Browser) (f : Fleet) (e : Error) :
  res (sample_room env b f) = Throw e ->
  sample_room env b f = {| res := Throw e; fleet := f; log := sample_log b |}.
Proof.
  intros H. rewrite sample_room_out in H |- *. cbn in H. now rewrite H.
Qed.

(** The loop of lines 93-97 stops at the first room that cannot be
    sampled: the rooms after it are not looked at. *)
Lemma sampling_aborts (pre post : Fleet) (b : Browser) (e : Error) (f : Fleet) :
  Forall (fun r => exists u, res (sample_room env r f) = Normal u) pre ->
  res (sample_room env b f) = Throw e ->
  for_each (sample_room env) (pre ++ b :: post)%list f =
    {| res := Throw e; fleet := f; log := flat_map sample_log (pre ++ [b])%list |}.
Proof.
  intros Hpre Hb. induction Hpre as [|r pre [u Hr] _ IH]; cbn [app for_each flat_map].
  - rewrite (bind_throw _ _ _ _ _ _ (sample_room_throw _ _ _ Hb)).
    now rewrite app_nil_r.
  - rewrite (bind_normal _ _ _ _ _ _ (sample_room_normal _ _ _ Hr)).
    rewrite (bind_throw _ _ _ _ _ _ IH). reflexivity.
Qed.

(** When every room can be sampled, the loop gives one entry per room, in
    the order of the fleet. *)
Lemma sampling_complete (bs : Fleet) (us : list RoomUsage) (f : Fleet) :
  Forall2 (fun b u => res (sample_room env b f) = Normal u) bs us ->
  for_each (sample_room env) bs f =
    {| res := Normal us; fleet := f; log := flat_map sample_log bs |}.
Proof.
  induction 1 as [|b u bs us Hb _ IH]; [reflexivity|].
  cbn [for_each flat_map].
  rewrite (bind_normal _ _ _ _ _ _ (sample_room_normal _ _ _ Hb)).
  rewrite (bind_normal _ _ _ _ _ _ IH). cbn. now rewrite app_nil_r.
Qed.

(** C2, as the code has it.  During [meminfo] the rooms are sampled one
    after the other, without any isolation: when the rooms before [b] can
    be sampled and [b] cannot, the handler fails with the error of [b].
    The only reply is the "Loading..." placeholder, which is never edited
    into a report, and the rooms after [b] are not sampled. *)
Theorem meminfo_sampling_aborts (msg : Message) (pre post : Fleet) (b : Browser) (e : Error) :
  JS.startsWith (content msg) (discordPrefix cfg) = true ->
  JS.includes (mastersDiscordId cfg) (Some (author_id msg)) = true ->
  is_cmd (parse (discordPrefix cfg) (content msg)) "meminfo" = true ->
  Forall (fun r => exists u, res (sample_room env r (pre ++ b :: post)%list) = Normal u) pre ->
  res (sample_room env b (pre ++ b :: post)%list) = Throw e ->
  _command cfg env msg (pre ++ b :: post)%list =
    {| res := Throw e;
       fleet := (pre ++ b :: post)%list;
       log := ChannelSend embedLoading :: flat_map sample_log (pre ++ [b])%list |}.
Proof.
  intros Hp Ha Hc Hpre Hb.
  pose proof (sampling_aborts pre post b e _ Hpre Hb) as Hs.
  unfold _command. rewrite Hp, Ha. cbv zeta. cbn [negb].
  remember (parse (discordPrefix cfg) (content msg)) as p eqn:Ep.
  rewrite !(is_cmd_command _ _ _ (is_cmd_true _ _ Hc)).
  change (String.eqb "meminfo" "help") with false.
  change (String.eqb "meminfo" "tokenlink") with false.
  change (String.eqb "meminfo" "open") with false.
  change (String.eqb "meminfo" "info") with false.
  change (String.eqb "meminfo" "meminfo") with true.
  cbv iota. rewrite !when_false, !bind_ret_l. unfold when.
  assert (Hm : cmd_meminfo env (pre ++ b :: post)%list =
               {| res := Throw e; fleet := (pre ++ b :: post)%list;
                  log := ChannelSend embedLoading :: flat_map sample_log (pre ++ [b])%list |}).
  { unfold cmd_meminfo, send.
    rewrite (bind_normal (emit (ChannelSend embedLoading)) _ _ _ tt [ChannelSend embedLoading] eq_refl).
    assert (Hu : _getRoomUsageList env (pre ++ b :: post)%list =
                 {| res := Throw e; fleet := (pre ++ b :: post)%list;
                    log := flat_map sample_log (pre ++ [b])%list |}).
    { unfold _getRoomUsageList.
      rewrite (bind_normal browsers _ _ _ (pre ++ b :: post)%list [] eq_refl).
      rewrite Hs. reflexivity. }
    rewrite (bind_throw _ _ _ _ _ _ Hu). reflexivity. }
  rewrite (bind_throw _ _ _ _ _ _ Hm). reflexivity.
Qed.

End Telemetry.

(** ** Tokens as they are pasted *)

Lemma removeAll_app (c : ascii) (a b : string) :
  JS.removeAll c (a ++ b) = JS.removeAll c a ++ JS.removeAll c b.
Proof.
  induction a as [|d a IH]; simpl; [reflexivity|].
  destruct (Ascii.eqb d c); simpl; now rewrite IH.
Qed.

Lemma removeAll_clean (s : string) : no_quote s = true -> JS.removeAll dquote s = s.
Proof.
  induction s as [|d s IH]; simpl; [reflexivity|].
  destruct (Ascii.eqb d dquote); simpl; [discriminate|].
  intros H. now rewrite (IH H).
Qed.

(** The line that the token page shows, [Token obtained: "<token>"], is cut
    down to the token. *)
Lemma open_token_pasted (tok : string) :
  no_quote tok = true ->
  JS.replace "Token obtained: " ""
    (JS.removeAll dquote ("Token obtained: " ++ quoted tok)) = tok.
Proof.
  intros H. rewrite removeAll_app. unfold quoted.
  change (JS.removeAll dquote "Token obtained: ") with "Token obtained: ".
  change (JS.removeAll dquote (String dquote tok ++ String dquote ""))
    with (JS.removeAll dquote (tok ++ String dquote "")).
  rewrite removeAll_app, (removeAll_clean _ H).
  change (JS.removeAll dquote (String dquote "")) with "".
  now rewrite append_empty_r, replace_head.
Qed.

(** With text after the bot name, the token of line 139 is the token of the
    wording. *)
Lemma open_token_as_worded (prefix raw cmd bot rest : string) :
  JS.trim raw = cmd ++ " " ++ bot ++ " " ++ rest ->
  no_blank cmd = true ->
  no_blank bot = true ->
  spec_open_token prefix (prefix ++ raw) = open_token (parse prefix (prefix ++ raw)).
Proof.
  intros Ht Hc Hb. unfold spec_open_token, open_token, second_argument.
  rewrite (parse_three _ _ _ _ _ Ht Hc Hb), slice_length_app, Ht.
  cbn [args text hd_error JS.str].
  change (cmd ++ " " ++ bot ++ " " ++ rest) with (cmd ++ String " " (bot ++ String " " rest)).
  rewrite !after_first_app by now apply no_blank_after_first.
  change (bot ++ " " ++ rest) with (bot ++ (" " ++ rest)).
  now rewrite <- append_assoc, replace_head.
Qed.


(** ** The parser against the wording of the specification *)

(** C6, as the code has it.  For a message that starts with the prefix, the
    prefix is cut off and the rest trimmed; the trimmed body is split at
    every space character (and at nothing else); the first piece,
    lower-cased, is the command, the other pieces are the arguments, and
    the tail is the trimmed body after its first space - the whole trimmed
    body when there is no space in it. *)
Theorem parse_splits_on_spaces (prefix rest : string) :
  let body := JS.trim rest in
  let p := parse prefix (prefix ++ rest) in
  JS.startsWith (prefix ++ rest) prefix = true
  /\ JS.split " " body = first_piece " " body :: args p
  /\ command p = Some (JS.toLowerCase (first_piece " " body))
  /\ text p = match after_first " " body with
              | None => body
              | Some r => r
              end.
Proof.
  cbv zeta. rewrite parse_first_space. cbn [command args text].
  repeat split.
  - apply prefix_app_startsWith.
  - apply split_first.
Qed.

(** C6, as worded, fails: for [!close] the wording gives an empty tail and
    the code gives "close"; for [!open<TAB>alpha x] the wording gives the
    command "open" and the code gives "open<TAB>alpha". *)
Lemma parse_not_as_worded :
  text (parse "!" "!close") = "close"
  /\ text (spec_parse "!" "!close") = ""
  /\ command (parse "!" ("!open" ++ Sample.tab ++ "alpha x"))
     = Some ("open" ++ Sample.tab ++ "alpha")
  /\ command (spec_parse "!" ("!open" ++ Sample.tab ++ "alpha x")) = Some "open".
Proof. repeat split. Qed.

(** ** Worked examples *)

(** C1, at a failing input.  An operator asks for [info] while the browser
    of a room has gone away: [_getRoomNameList] throws, the promise of
    [_command] is rejected, and the listener, which does not await it,
    neither catches the failure nor replies. *)
Theorem listener_leaks_handler_failure :
  on_message Sample.cfg Sample.env (Sample.operator "!info")
    [Sample.crashed None 9; Sample.roomB]
  = {| res := Normal (Rejected Sample.target_closed);
       fleet := [Sample.crashed None 9; Sample.roomB];
       log := [] |}.
Proof. reflexivity. Qed.

(** C2, as worded, fails: the process of Room A has exited, Room B and
    Room C are in good health; [meminfo] fails with the error of Room A
    after the placeholder, samples neither Room B nor Room C, and sends no
    report. *)
Lemma meminfo_not_isolated :
  _command Sample.cfg Sample.env_roomA_gone (Sample.operator "!meminfo") Sample.fleet3
  = {| res := Throw "Error: No matching pid found";
       fleet := Sample.fleet3;
       log := [ChannelSend embedLoading; Pidusage (Some 101%Z)] |}
  /\ existsb is_report
       (log (_command Sample.cfg Sample.env_roomA_gone (Sample.operator "!meminfo")
               Sample.fleet3)) = false.
Proof. split; reflexivity. Qed.

(** C2, an instance: Room B is the first room that cannot be sampled. *)
Lemma meminfo_sampling_aborts_witness :
  _command Sample.cfg Sample.env_roomB_gone (Sample.operator "!meminfo") Sample.fleet3
  = {| res := Throw "Error: No matching pid found";
       fleet := Sample.fleet3;
       log := [ChannelSend embedLoading; Pidusage (Some 101%Z); Pidusage (Some 102%Z)] |}.
Proof.
  apply (meminfo_sampling_aborts Sample.cfg Sample.env_roomB_gone
           (Sample.operator "!meminfo") [Sample.roomA] [Sample.roomC] Sample.roomB).
  - reflexivity.
  - reflexivity.
  - reflexivity.
  - constructor; [|constructor].
    exists {| usage_process := Sample.reading 3 52428800 101; usage_title := "Room A" |}.
    reflexivity.
  - reflexivity.
Defined.

(** C3, at a failing input.  [!open alpha ""]: the token is empty and the
    text of line 148 is set, yet the room is spawned and the one reply is
    "Room running!...": the callback has overwritten the description.
    [!open alpha]: the token is the bot name, and line 148 is not reached. *)
Theorem missing_token_warning_is_lost :
  open_token (parse "!" ("!open alpha " ++ quoted "")) = ""
  /\ _command Sample.cfg Sample.env (Sample.operator ("!open alpha " ++ quoted "")) []
     = {| res := Normal tt;
          fleet := [Sample.room "New room" None 4242];
          log := [FsReadFile (Some "bots/alpha.js");
                  ServerOpen "/* room script */" "";
                  ChannelSend (setDescription (room_running_text (Some Sample.opened))
                                 (setTitle "Open room" embed0))] |}
  /\ log (_command Sample.cfg Sample.env (Sample.operator "!open alpha") [])
     = [FsReadFile (Some "bots/alpha.js");
        ServerOpen "/* room script */" "alpha";
        ChannelSend (setDescription (room_running_text (Some Sample.opened))
                       (setTitle "Open room" embed0))].
Proof. repeat split. Qed.

(** C4, an instance: no bot is called gamma. *)
Lemma open_unknown_bot_witness :
  _command Sample.cfg Sample.env (Sample.operator "!open gamma thr1.AAA") Sample.fleet3
  = {| res := Normal tt;
       fleet := Sample.fleet3;
       log := [ChannelSend
                 (setDescription
                    "This bot does not exist. Type !info to see the list of available bots."
                    (setTitle "Open room" embed0))] |}.
Proof.
  apply (open_unknown_bot Sample.cfg Sample.env
           (Sample.operator "!open gamma thr1.AAA") Sample.fleet3); reflexivity.
Defined.

(** C5, an instance: a stranger asks for [exit]; an operator types a
    command that does not exist. *)
Lemma unauthorized_is_silent_witness :
  on_message Sample.cfg Sample.env (Sample.stranger "!exit") Sample.fleet3
  = {| res := Normal Fulfilled; fleet := Sample.fleet3; log := [] |}
  /\ on_message Sample.cfg Sample.env (Sample.operator "!dance now") Sample.fleet3
     = on_message Sample.cfg Sample.env (Sample.stranger "!exit") Sample.fleet3.
Proof.
  apply (unauthorized_is_silent Sample.cfg Sample.env
           (Sample.stranger "!exit") (Sample.operator "!dance now") Sample.fleet3);
    reflexivity.
Defined.

(** C10, an instance: the name is matched whatever its case. *)
Lemma tokenlink_replies_witness :
  log (_command Sample.cfg Sample.env (Sample.operator "!TokenLink") Sample.fleet3)
  = [ChannelSend
       (setDescription "[Click here.](https://www.haxball.com/headlesstoken)"
          (setTitle "Headless Token" embed0))].
Proof.
  rewrite (proj1 (tokenlink_replies Sample.cfg Sample.env
                    (Sample.operator "!TokenLink") Sample.fleet3
                    eq_refl eq_refl eq_refl)).
  reflexivity.
Defined.

(** C8, an instance: [!close] asks the server to close "close". *)
Lemma bare_command_tail_witness :
  text (parse "!" "!close") = "close"
  /\ log (_command Sample.cfg Sample.env (Sample.operator "!close") Sample.fleet3)
     = [ServerClose "close"; ChannelSend (close_reply false)].
Proof.
  assert (Hne : "close" <> "") by discriminate.
  destruct (bare_command_tail Sample.cfg Sample.env "close" "42" Sample.fleet3 eq_refl Hne)
    as [(_ & _ & Ht & _) Hc].
  split; [exact Ht | exact (Hc eq_refl eq_refl)].
Defined.


(** * Further properties *)

(** ** One handler per message *)

Lemma bind_unit_r (m : M unit) (k : unit -> M unit) (f : Fleet) :
  (forall u f', k u f' = silent tt f') -> bind m k f = m f.
Proof.
  intros H. unfold bind. destruct (m f) as [[[]|e|] f' l]; cbn; [|reflexivity..].
  rewrite H. cbn. now rewrite app_nil_r.
Qed.

Ltac eval_eqb :=
  repeat match goal with
         | |- context [String.eqb ?a ?b] =>
             let v := eval vm_compute in (String.eqb a b) in
             change (String.eqb a b) with v
         end.

Section DispatchOne.

Context {Num : Type} {numeric : Numeric Num}.
Variable cfg : PainelConfig.
Variable env : @Env Num.

(** For an operator's message that starts with the prefix, the chain of
    tests runs the handler of the command and nothing else. *)
Lemma command_dispatch (msg : Message) (f : Fleet) :
  JS.startsWith (content msg) (discordPrefix cfg) = true ->
  JS.includes (mastersDiscordId cfg) (Some (author_id msg)) = true ->
  _command cfg env msg f = handler cfg env (parse (discordPrefix cfg) (content msg)) f.
Proof.
  intros Hp Ha. unfold _command. rewrite Hp, Ha. cbv zeta. cbn [negb].
  remember (parse (discordPrefix cfg) (content msg)) as p eqn:Ep. clear Ep.
  unfold handler, is_cmd. destruct (command p) as [c|]; [|reflexivity].
  destruct (String.eqb_spec c "help") as [->|N1].
  { eval_eqb. reflexivity. }
  destruct (String.eqb_spec c "tokenlink") as [->|N2].
  { eval_eqb. reflexivity. }
  rewrite !when_false, !bind_ret_l.
  destruct (String.eqb_spec c "open") as [->|N3].
  { eval_eqb. unfold bind.
    destruct (cmd_open cfg env p f) as [[[|]|e|] f' l]; reflexivity. }
  rewrite bind_ret_l.
  destruct (String.eqb_spec c "info") as [->|N4].
  { eval_eqb. apply bind_unit_r. reflexivity. }
  rewrite when_false, bind_ret_l.
  destruct (String.eqb_spec c "meminfo") as [->|N5].
  { eval_eqb. apply bind_unit_r. reflexivity. }
  rewrite when_false, bind_ret_l.
  destruct (String.eqb_spec c "close") as [->|N6].
  { eval_eqb. apply bind_unit_r. reflexivity. }
  rewrite when_false, bind_ret_l.
  destruct (String.eqb_spec c "exit") as [->|N7].
  { eval_eqb. apply bind_unit_r. reflexivity. }
  rewrite when_false, bind_ret_l.
  destruct (String.eqb_spec c "eval") as [->|N8]; reflexivity.
Qed.

Lemma handler_pick (p : Parsed) (c : string) :
  command p = Some c ->
  handler cfg env p =
    if String.eqb c "help" then cmd_help
    else if String.eqb c "tokenlink" then cmd_tokenlink
    else if String.eqb c "open" then (cmd_open cfg env p ;;; ret tt)
    else if String.eqb c "info" then cmd_info cfg
    else if String.eqb c "meminfo" then cmd_meminfo env
    else if String.eqb c "close" then cmd_close env p
    else if String.eqb c "exit" then cmd_exit
    else if String.eqb c "eval" then cmd_eval env p
    else ret tt.
Proof. intros H. unfold handler, is_cmd. now rewrite H. Qed.

End DispatchOne.

(** ** Reading the fleet *)

Lemma confined_ret {A} (P : Event -> bool) (a : A) : confined P (ret a).
Proof. intros f. now split. Qed.

Lemma confined_throw {A} (P : Event -> bool) (e : Error) : confined P (@throw A e).
Proof. intros f. now split. Qed.

Lemma confined_await {A} (P : Event -> bool) (r : Res A) : confined P (await r).
Proof. destruct r; [apply confined_ret | apply confined_throw]. Qed.

Lemma confined_emit (P : Event -> bool) (ev : Event) :
  P ev = true -> confined P (emit ev).
Proof. intros H f. split; [reflexivity|]. cbn. now rewrite H. Qed.

Lemma confined_browsers (P : Event -> bool) : confined P browsers.
Proof. intros f. now split. Qed.

Lemma confined_bind {A B} (P : Event -> bool) (m : M A) (k : A -> M B) :
  confined P m -> (forall a, confined P (k a)) -> confined P (bind m k).
Proof.
  intros Hm Hk f. unfold bind. destruct (Hm f) as [Hf Hl].
  destruct (res (m f)) as [a| |]; cbn; [|now split..].
  destruct (Hk a (fleet (m f))) as [Hf' Hl'].
  split; [congruence|].
  now rewrite forallb_app, Hl, Hl'.
Qed.

Lemma confined_for_each {A B} (P : Event -> bool) (k : A -> M B) (xs : list A) :
  (forall x, confined P (k x)) -> confined P (for_each k xs).
Proof.
  intros Hk. induction xs as [|x xs IH]; cbn [for_each]; [apply confined_ret|].
  apply confined_bind; [apply Hk|]. intros y.
  apply confined_bind; [exact IH|]. intros ys. apply confined_ret.
Qed.

Lemma confined_title_of (P : Event -> bool) (page : option Page) :
  confined P (title_of page).
Proof. destruct page; [apply confined_await | apply confined_throw]. Qed.

Lemma no_event_nil (l : list Event) : forallb no_event l = true -> l = [].
Proof. destruct l; [reflexivity | discriminate]. Qed.

Lemma confined_getRoomNameList : confined no_event _getRoomNameList.
Proof.
  unfold _getRoomNameList.
  apply confined_bind; [apply confined_browsers|]. intros bs.
  apply confined_bind; [|intros; apply confined_ret].
  apply confined_for_each. intros b. unfold read_room.
  apply confined_bind; [apply confined_await|]. intros ps.
  apply confined_bind; [apply confined_title_of|]. intros t. apply confined_ret.
Qed.

Lemma confined_getRoomUsageList {Num : Type} (env : @Env Num) :
  confined is_pidusage (_getRoomUsageList env).
Proof.
  unfold _getRoomUsageList.
  apply confined_bind; [apply confined_browsers|]. intros bs.
  apply confined_for_each. intros b. unfold sample_room.
  apply confined_bind; [apply confined_await|]. intros ps.
  apply confined_bind; [now apply confined_emit|]. intros _.
  apply confined_bind; [apply confined_await|]. intros st.
  apply confined_bind; [apply confined_title_of|]. intros t. apply confined_ret.
Qed.

(** X7.  Reading the inventory or the telemetry of the rooms is read-only,
    whatever the rooms answer: [_getRoomNameList] leaves the fleet as it is
    and makes no call to the outside; [_getRoomUsageList] leaves the fleet
    as it is and only asks for process telemetry. *)
Theorem inventory_is_read_only {Num : Type} (env : @Env Num) (f : Fleet) :
  (fleet (_getRoomNameList f) = f /\ log (_getRoomNameList f) = [])
  /\ (fleet (_getRoomUsageList env f) = f
      /\ forallb is_pidusage (log (_getRoomUsageList env f)) = true).
Proof.
  split.
  - destruct (confined_getRoomNameList f) as [H1 H2].
    split; [exact H1 | now apply no_event_nil].
  - apply confined_getRoomUsageList.
Qed.

Lemma read_room_normal (b : Browser) (f : Fleet) (r : Room) :
  res (read_room b f) = Normal r ->
  read_room b f = {| res := Normal r; fleet := f; log := [] |}.
Proof. intros H. rewrite read_room_out in H |- *. cbn in H. now rewrite H. Qed.

Lemma read_room_throw (b : Browser) (f : Fleet) (e : Error) :
  res (read_room b f) = Throw e ->
  read_room b f = {| res := Throw e; fleet := f; log := [] |}.
Proof. intros H. rewrite read_room_out in H |- *. cbn in H. now rewrite H. Qed.

(** The loop of lines 65-70 stops at the first room that cannot be read. *)
Lemma reading_aborts (pre post : Fleet) (b : Browser) (e : Error) (f : Fleet) :
  Forall (fun r => exists room, res (read_room r f) = Normal room) pre ->
  res (read_room b f) = Throw e ->
  for_each read_room (pre ++ b :: post)%list f =
    {| res := Throw e; fleet := f; log := [] |}.
Proof.
  intros Hpre Hb. induction Hpre as [|r pre [room Hr] _ IH]; cbn [app for_each].
  - now rewrite (bind_throw _ _ _ _ _ _ (read_room_throw _ _ _ Hb)).
  - rewrite (bind_normal _ _ _ _ _ _ (read_room_normal _ _ _ Hr)).
    now rewrite (bind_throw _ _ _ _ _ _ IH).
Qed.

Lemma getRoomNameList_read (bs : Fleet) (rooms : list Room) :
  Forall2 (fun b r => res (read_room b bs) = Normal r) bs rooms ->
  _getRoomNameList bs = {| res := Normal (roomNameList rooms); fleet := bs; log := [] |}.
Proof.
  intros Hr. unfold _getRoomNameList.
  rewrite (bind_normal browsers _ _ _ bs [] eq_refl).
  rewrite (bind_normal _ _ _ _ _ _ (for_each_read_room _ _ _ Hr)).
  reflexivity.
Qed.

(** X5.  A fleet whose titles can all be read and in which no room has a
    proxy: the inventory is the fixed text when the fleet is empty, and
    otherwise one line "title (pid)" per room, in the order of the fleet,
    without any header. *)
Theorem inventory_without_proxy (bs : Fleet) (rooms : list Room) :
  Forall2 (fun b r => res (read_room b bs) = Normal r) bs rooms ->
  forallb (fun b => is_null (proxyServer b)) bs = true ->
  _getRoomNameList bs =
    {| res := Normal match bs with
                     | [] => "There are no open rooms!"
                     | _ :: _ => JS.join nl (map room_name rooms)
                     end;
       fleet := bs;
       log := [] |}.
Proof.
  intros Hr Hn. rewrite (getRoomNameList_read _ _ Hr). f_equal. f_equal.
  pose proof (rooms_proxies _ _ _ Hr) as Hpx.
  unfold roomNameList. rewrite forallb_room_proxy, Hpx.
  assert (Hn' : forallb is_null (map proxyServer bs) = true).
  { clear - Hn. induction bs as [|b bs IH]; cbn in *; [reflexivity|].
    apply andb_prop in Hn as [H1 H2]. now rewrite H1, IH. }
  rewrite Hn'. destruct Hr; reflexivity.
Qed.

(** X5, an instance: two rooms without proxy. *)
Lemma inventory_without_proxy_witness :
  _getRoomNameList [Sample.roomC; Sample.room "Room D" None 104] =
    {| res := Normal ("Room C (103)" ++ nl ++ "Room D (104)");
       fleet := [Sample.roomC; Sample.room "Room D" None 104];
       log := [] |}.
Proof.
  apply (inventory_without_proxy [Sample.roomC; Sample.room "Room D" None 104]
           [ {| room_name := "Room C (103)"; room_proxy := None |};
             {| room_name := "Room D (104)"; room_proxy := None |} ]).
  - repeat constructor.
  - reflexivity.
Defined.

Section Info.

Context {Num : Type} {numeric : Numeric Num}.
Variable cfg : PainelConfig.
Variable env : @Env Num.

Lemma command_info (msg : Message) (f : Fleet) :
  JS.startsWith (content msg) (discordPrefix cfg) = true ->
  JS.includes (mastersDiscordId cfg) (Some (author_id msg)) = true ->
  is_cmd (parse (discordPrefix cfg) (content msg)) "info" = true ->
  _command cfg env msg f = cmd_info cfg f.
Proof.
  intros Hp Ha Hc. rewrite (command_dispatch _ _ _ _ Hp Ha).
  now rewrite (handler_pick _ _ _ _ (is_cmd_true _ _ Hc)).
Qed.

(** X8.  [info] from an operator, when every title can be read and the
    list of bot names is not the empty text (discord.js refuses an empty
    field value): one reply, the "Information" embed whose field "Open
    rooms" is the inventory and whose field "Bot list" holds the keys of
    the catalogue, one per line; the fleet is untouched. *)
Theorem info_replies (msg : Message) (bs : Fleet) (rooms : list Room) :
  JS.startsWith (content msg) (discordPrefix cfg) = true ->
  JS.includes (mastersDiscordId cfg) (Some (author_id msg)) = true ->
  is_cmd (parse (discordPrefix cfg) (content msg)) "info" = true ->
  Forall2 (fun b r => res (read_room b bs) = Normal r) bs rooms ->
  JS.join nl (bots_keys cfg) <> "" ->
  _command cfg env msg bs =
    {| res := Normal tt;
       fleet := bs;
       log := [ChannelSend
                 {| embed_color := Some "#0099ff";
                    embed_title := Some "Information";
                    embed_timestamp := None;
                    embed_description := None;
                    embed_fields :=
                      [{| field_name := "Open rooms";
                          field_value := roomNameList rooms;
                          field_inline := false |};
                       {| field_name := "Bot list";
                          field_value := JS.join nl (bots_keys cfg);
                          field_inline := false |}] |}] |}.
Proof.
  intros Hp Ha Hc Hr _. rewrite (command_info _ _ Hp Ha Hc). unfold cmd_info.
  now rewrite (bind_normal _ _ _ _ _ _ (getRoomNameList_read _ _ Hr)).
Qed.

(** X9.  [info] from an operator, when the rooms before [b] can be read and
    [b] cannot: the handler fails with the error of [b] and nothing is sent,
    not even the rooms that were read. *)
Theorem info_aborts (msg : Message) (pre post : Fleet) (b : Browser) (e : Error) :
  JS.startsWith (content msg) (discordPrefix cfg) = true ->
  JS.includes (mastersDiscordId cfg) (Some (author_id msg)) = true ->
  is_cmd (parse (discordPrefix cfg) (content msg)) "info" = true ->
  Forall (fun r => exists room, res (read_room r (pre ++ b :: post)%list) = Normal room) pre ->
  res (read_room b (pre ++ b :: post)%list) = Throw e ->
  _command cfg env msg (pre ++ b :: post)%list =
    {| res := Throw e; fleet := (pre ++ b :: post)%list; log := [] |}.
Proof.
  intros Hp Ha Hc Hpre Hb. rewrite (command_info _ _ Hp Ha Hc). unfold cmd_info.
  apply bind_throw. unfold _getRoomNameList.
  rewrite (bind_normal browsers _ _ _ (pre ++ b :: post)%list [] eq_refl).
  now rewrite (bind_throw _ _ _ _ _ _ (reading_aborts _ _ _ _ _ Hpre Hb)).
Qed.

End Info.

(** X8, an instance: the scenario fleet and the catalogue of the sample
    deployment. *)
Lemma info_replies_witness :
  _command Sample.cfg Sample.env (Sample.operator "!INFO") Sample.fleet3 =
    {| res := Normal tt;
       fleet := Sample.fleet3;
       log := [ChannelSend
                 (addField "Bot list" ("alpha" ++ nl ++ "beta") false
                    (addField "Open rooms"
                       ("• proxy1" ++ nl ++ "Room A (101)" ++ nl ++ "Room B (102)" ++ nl
                          ++ nl ++ "• undefined" ++ nl ++ "Room C (103)" ++ nl) false
                       (setTitle "Information" embed0)))] |}.
Proof.
  apply (info_replies Sample.cfg Sample.env (Sample.operator "!INFO") Sample.fleet3
           [ {| room_name := "Room A (101)"; room_proxy := Some "proxy1" |};
             {| room_name := "Room B (102)"; room_proxy := Some "proxy1" |};
             {| room_name := "Room C (103)"; room_proxy := None |} ]).
  - reflexivity.
  - reflexivity.
  - reflexivity.
  - repeat constructor.
  - discriminate.
Defined.

(** X9, an instance: the title of Room A is read, the browser of the second
    room has gone away. *)
Lemma info_aborts_witness :
  _command Sample.cfg Sample.env (Sample.operator "!info")
    [Sample.roomA; Sample.crashed None 9; Sample.roomC] =
    {| res := Throw Sample.target_closed;
       fleet := [Sample.roomA; Sample.crashed None 9; Sample.roomC];
       log := [] |}.
Proof.
  apply (info_aborts Sample.cfg Sample.env (Sample.operator "!info")
           [Sample.roomA] [Sample.roomC] (Sample.crashed None 9)).
  - reflexivity.
  - reflexivity.
  - reflexivity.
  - constructor; [|constructor].
    exists {| room_name := "Room A (101)"; room_proxy := Some "proxy1" |}. reflexivity.
  - reflexivity.
Defined.

(** ** Every room once *)

Lemma filter_keeps_all (p : option string) (ls : list (option string)) :
  ~ In p ls -> filter (fun q => negb (proxy_eqb p q)) ls = ls.
Proof.
  induction ls as [|l ls IH]; cbn; [reflexivity|].
  intros H. destruct (proxy_eqb_spec p l) as [->|N]; cbn.
  - elim H. now left.
  - f_equal. apply IH. intros Hin. apply H. now right.
Qed.

(** Taking the group of [p] out of the list of groups and putting it in
    front is a rearrangement. *)
Lemma extract_group {A} (g : option string -> list A) (p : option string)
    (ls : list (option string)) :
  NoDup ls ->
  (~ In p ls -> g p = []) ->
  Permutation (g p ++ flat_map g (filter (fun q => negb (proxy_eqb p q)) ls))%list
              (flat_map g ls).
Proof.
  induction ls as [|l ls IH]; intros ND Hp.
  - cbn. rewrite Hp by tauto. constructor.
  - inversion ND as [|? ? Hl ND']; subst. cbn [filter].
    destruct (proxy_eqb_spec p l) as [->|N]; cbn [negb flat_map].
    + now rewrite (filter_keeps_all _ _ Hl).
    + rewrite Permutation_app_swap_app. apply Permutation_app_head.
      apply IH; [exact ND'|]. intros Hin. apply Hp. intros [E|Hin']; [congruence | tauto].
Qed.

Lemma members_cons_other (r : Room) (rooms : list Room) (q : option string) :
  proxy_eqb q (room_proxy r) = false -> members q (r :: rooms) = members q rooms.
Proof. intros H. unfold members. cbn. now rewrite H. Qed.

Lemma flat_map_ext_in_members (r : Room) (rooms : list Room) :
  flat_map (fun p => members p (r :: rooms))
    (filter (fun q => negb (proxy_eqb (room_proxy r) q)) (first_seen (map room_proxy rooms)))
  = flat_map (fun p => members p rooms)
      (filter (fun q => negb (proxy_eqb (room_proxy r) q)) (first_seen (map room_proxy rooms))).
Proof.
  induction (first_seen (map room_proxy rooms)) as [|l ls IH]; [reflexivity|].
  cbn [filter]. destruct (proxy_eqb_spec (room_proxy r) l) as [E|N]; cbn [negb]; [exact IH|].
  cbn [flat_map]. rewrite IH, members_cons_other; [reflexivity|].
  destruct (proxy_eqb_spec l (room_proxy r)); [congruence | reflexivity].
Qed.

Lemma members_partition (rooms : list Room) :
  Permutation (flat_map (fun p => members p rooms) (first_seen (map room_proxy rooms)))
              rooms.
Proof.
  induction rooms as [|r rooms IH]; [constructor|].
  cbn [map first_seen flat_map].
  unfold members at 1. cbn [filter]. rewrite proxy_eqb_refl. fold (members (room_proxy r) rooms).
  cbn [app]. constructor.
  rewrite (flat_map_ext_in_members r rooms).
  transitivity (flat_map (fun p => members p rooms) (first_seen (map room_proxy rooms)));
    [|exact IH].
  apply (extract_group (fun p => members p rooms)); [apply first_seen_NoDup|].
  intros Hin. apply members_absent.
  destruct (existsb (proxy_eqb (room_proxy r)) (map room_proxy rooms)) eqn:E; [|reflexivity].
  elim Hin. apply (proj2 (first_seen_In _ _)). exact (proj1 (existsb_In _ _) E).
Qed.

Lemma flat_map_map {A B C} (g : A -> B) (h : B -> list C) (l : list A) :
  flat_map h (map g l) = flat_map (fun a => h (g a)) l.
Proof. induction l as [|a l IH]; cbn; [reflexivity | now rewrite IH]. Qed.

(** X6.  In the grouped inventory no label has two headers, the text under a
    header lists the rooms of that label in the order of the fleet, and the
    groups together hold every room exactly once. *)
Theorem inventory_partitions_rooms (rooms : list Room) :
  NoDup (map pr_proxy (proxyRooms rooms))
  /\ Forall (fun g => pr_text g = lines (map room_name (members (pr_proxy g) rooms)))
       (proxyRooms rooms)
  /\ Permutation (flat_map (fun g => members (pr_proxy g) rooms) (proxyRooms rooms)) rooms.
Proof.
  rewrite proxyRooms_spec_groups. unfold spec_groups. repeat split.
  - rewrite map_map. cbn [group_of pr_proxy]. rewrite map_id. apply first_seen_NoDup.
  - apply Forall_forall. intros g Hg. apply in_map_iff in Hg as (p & <- & _). reflexivity.
  - rewrite flat_map_map. cbn [group_of pr_proxy]. apply members_partition.
Qed.

(** ** Text after the command *)

(** The parse of [<cmd> <rest>]. *)
Lemma parse_two (prefix raw cmd rest : string) :
  JS.trim raw = cmd ++ " " ++ rest ->
  no_blank cmd = true ->
  parse prefix (prefix ++ raw) =
    {| command := Some (JS.toLowerCase cmd);
       args := JS.split " " rest;
       text := rest |}.
Proof.
  intros Ht Hc. rewrite parse_first_space, Ht.
  change (cmd ++ " " ++ rest) with (cmd ++ String " " rest).
  now rewrite first_piece_app, after_first_app by now apply no_blank_after_first.
Qed.

Lemma join_cons_char (sep : string) (d : ascii) (t : string) (ts : list string) :
  JS.join sep (String d t :: ts) = String d (JS.join sep (t :: ts)).
Proof. destruct ts; reflexivity. Qed.

Lemma join_cons2 (sep x y : string) (r : list string) :
  JS.join sep (x :: y :: r) = x ++ sep ++ JS.join sep (y :: r).
Proof. reflexivity. Qed.

(** Joining the pieces of a split with the separator gives the text back. *)
Lemma join_split (c : ascii) (s : string) :
  JS.join (String c "") (JS.split c s) = s.
Proof.
  induction s as [|d s IH]; [reflexivity|].
  cbn [JS.split]. rewrite split_first in IH |- *.
  destruct (Ascii.eqb_spec d c) as [->|N].
  - rewrite join_cons2, IH. reflexivity.
  - now rewrite join_cons_char, IH.
Qed.

(** X4.  Parsing loses no text: the first piece and the arguments, joined by
    single spaces, are the trimmed body of the message; the command is the
    first piece in lower case. *)
Theorem parse_loses_nothing (prefix rest : string) :
  exists first,
    command (parse prefix (prefix ++ rest)) = Some (JS.toLowerCase first)
    /\ JS.join " " (first :: args (parse prefix (prefix ++ rest))) = JS.trim rest.
Proof.
  exists (first_piece " " (JS.trim rest)). rewrite parse_first_space. cbn [command args].
  split; [reflexivity|].
  rewrite <- split_first. apply join_split.
Qed.

Section MoreHandlers.

Context {Num : Type} {numeric : Numeric Num}.
Variable cfg : PainelConfig.
Variable env : @Env Num.

(** X14.  [close] from an operator, followed by a space and a target: the
    server is asked to close exactly the text after the first space, inner
    spaces included.  An answer of the server is reported in one reply
    ("Room closed!" when it is true, "Unable to find room" otherwise); a
    failure of the server is not caught: the handler fails with it and
    nothing is sent. *)
Theorem close_target_is_tail (raw cmd target author : string) (f : Fleet) :
  JS.trim raw = cmd ++ " " ++ target ->
  no_blank cmd = true ->
  JS.toLowerCase cmd = "close" ->
  JS.includes (mastersDiscordId cfg) (Some author) = true ->
  _command cfg env {| content := discordPrefix cfg ++ raw; author_id := author |} f =
    {| res := match fst (server_close env target f) with
              | Ok _ => Normal tt
              | Err e => Throw e
              end;
       fleet := snd (server_close env target f);
       log := ServerClose target ::
                match fst (server_close env target f) with
                | Ok found => [ChannelSend (close_reply found)]
                | Err _ => []
                end |}.
Proof.
  intros Ht Hc Hl Ha.
  rewrite command_dispatch; cbn [content author_id];
    [|apply prefix_app_startsWith | exact Ha].
  pose proof (parse_two (discordPrefix cfg) _ _ _ Ht Hc) as Hp. rewrite Hl in Hp.
  rewrite (handler_pick _ _ _ "close") by now rewrite Hp.
  cbn [String.eqb]. eval_eqb. cbv iota.
  unfold cmd_close, call_close, bind, emit, send, ret. rewrite Hp. cbn.
  destruct (server_close env target f) as [[[|]|e] f']; reflexivity.
Qed.

Lemma for_each_close (bs : Fleet) (f : Fleet) :
  for_each (fun b => emit (BrowserClose b)) bs f =
    {| res := Normal (map (fun _ => tt) bs); fleet := f; log := map BrowserClose bs |}.
Proof.
  induction bs as [|b bs IH]; [reflexivity|]. cbn [for_each map].
  rewrite (bind_normal (emit (BrowserClose b)) _ f f tt [BrowserClose b] eq_refl).
  rewrite (bind_normal _ _ _ _ _ _ IH). cbn. now rewrite app_nil_r.
Qed.

(** [cmd_exit], step by step. *)
Lemma cmd_exit_trace (f : Fleet) :
  cmd_exit f =
    {| res := Exited;
       fleet := f;
       log := ChannelSend closing_embed :: (map BrowserClose f ++ [ProcessExit])%list |}.
Proof.
  unfold cmd_exit, send.
  rewrite (bind_normal (emit (ChannelSend closing_embed)) _ f f tt
             [ChannelSend closing_embed] eq_refl).
  rewrite (bind_normal browsers _ f f f [] eq_refl).
  rewrite (bind_normal _ _ _ _ _ _ (for_each_close f f)).
  reflexivity.
Qed.

(** X15.  [exit] never ends the process behind the back of the rooms: for
    an operator's [exit], when the process exit is reached, the "Closing
    server..." reply was sent first, then [close()] was called on every
    browser of the fleet, once each and in the order of the fleet, and the
    exit is the last thing that happens. *)
Theorem exit_closes_every_browser (msg : Message) (f : Fleet) :
  JS.startsWith (content msg) (discordPrefix cfg) = true ->
  JS.includes (mastersDiscordId cfg) (Some (author_id msg)) = true ->
  is_cmd (parse (discordPrefix cfg) (content msg)) "exit" = true ->
  existsb is_exit (log (_command cfg env msg f)) = true ->
  log (_command cfg env msg f) =
    ChannelSend {| embed_color := Some "#0099ff";
                   embed_title := Some "Closing";
                   embed_timestamp := None;
                   embed_description := Some "Closing server...";
                   embed_fields := [] |}
      :: (map BrowserClose f ++ [ProcessExit])%list
  /\ res (_command cfg env msg f) = Exited
  /\ res (on_message cfg env msg f) = Exited.
Proof.
  intros Hp Ha Hc _.
  assert (H : _command cfg env msg f = cmd_exit f).
  { rewrite (command_dispatch _ _ _ _ Hp Ha).
    now rewrite (handler_pick _ _ _ _ (is_cmd_true _ _ Hc)). }
  rewrite listener_runs_command. unfold call_async.
  rewrite H, cmd_exit_trace. repeat split.
Qed.

(** X16.  A throw of the evaluated code is caught: for an operator's
    [eval] whose evaluation throws [e], the handler completes normally and
    the ERROR block that holds [e] is sent. *)
Theorem eval_throw_is_reported (msg : Message) (f : Fleet) (e : Error) :
  JS.startsWith (content msg) (discordPrefix cfg) = true ->
  JS.includes (mastersDiscordId cfg) (Some (author_id msg)) = true ->
  is_cmd (parse (discordPrefix cfg) (content msg)) "eval" = true ->
  fst (js_eval env (JS.join " " (args (parse (discordPrefix cfg) (content msg)))) f) = Err e ->
  res (_command cfg env msg f) = Normal tt
  /\ In (ChannelSendText ("`ERROR` ```xl" ++ nl ++ e ++ nl ++ "```") None)
       (log (_command cfg env msg f)).
Proof.
  intros Hp Ha Hc.
  rewrite (command_dispatch _ _ _ _ Hp Ha).
  rewrite (handler_pick _ _ _ _ (is_cmd_true _ _ Hc)). eval_eqb. cbv iota.
  unfold cmd_eval, call_eval, try_catch, bind, emit, ret. cbn.
  destruct (js_eval env _ f) as [[v|e'] f']; cbn; [discriminate|].
  intros [= ->]. split; [reflexivity|]. right. now left.
Qed.

(** X17.  [eval] from an operator, followed by a space and some text: the
    code that is evaluated is exactly the text after the first space, with
    its inner spaces as they were typed. *)
Theorem eval_code_is_tail (raw cmd rest author : string) (f : Fleet) :
  JS.trim raw = cmd ++ " " ++ rest ->
  no_blank cmd = true ->
  JS.toLowerCase cmd = "eval" ->
  JS.includes (mastersDiscordId cfg) (Some author) = true ->
  log (_command cfg env {| content := discordPrefix cfg ++ raw; author_id := author |} f)
  = [JsEval rest;
     match fst (js_eval env rest f) with
     | Ok v => ChannelSendText v (Some "javascript")
     | Err e => ChannelSendText (eval_error_text e) None
     end].
Proof.
  intros Ht Hc Hl Ha.
  pose proof (parse_two (discordPrefix cfg) _ _ _ Ht Hc) as Hp. rewrite Hl in Hp.
  assert (Hcode : JS.join " " (args (parse (discordPrefix cfg) (discordPrefix cfg ++ raw)))
                  = rest).
  { rewrite Hp. cbn [args]. apply join_split. }
  rewrite command_dispatch; cbn [content author_id];
    [|apply prefix_app_startsWith | exact Ha].
  rewrite (handler_pick _ _ _ "eval") by now rewrite Hp.
  eval_eqb. cbv iota.
  unfold cmd_eval, call_eval, try_catch, bind, emit, ret. rewrite Hcode. cbn.
  destruct (js_eval env rest f) as [[v|e] f']; reflexivity.
Qed.

End MoreHandlers.

(** ** The telemetry report *)

Lemma bind_exited {A B} (m : M A) (k : A -> M B) (f f' : Fleet) (l : list Event) :
  m f = {| res := Exited; fleet := f'; log := l |} ->
  bind m k f = {| res := Exited; fleet := f'; log := l |}.
Proof. intros H. unfold bind. now rewrite H. Qed.

Lemma no_report_in_pidusage (l : list Event) :
  forallb is_pidusage l = true -> existsb is_report l = false.
Proof.
  induction l as [|ev l IH]; cbn; [reflexivity|].
  intros H. apply andb_prop in H as [H1 H2].
  rewrite (IH H2). now destruct ev.
Qed.

Section Report.

Context {Num : Type} {numeric : Numeric Num}.
Variable cfg : PainelConfig.
Variable env : @Env Num.

Lemma sample_log_normal (b : Browser) (f : Fleet) (u : RoomUsage) :
  res (sample_room env b f) = Normal u -> sample_log b = [Pidusage (process_pid b)].
Proof.
  unfold sample_room, sample_log, bind, await.
  destruct (browser_pages b); cbn; [reflexivity | discriminate].
Qed.

Lemma sample_logs_normal (bs : Fleet) (us : list RoomUsage) (f : Fleet) :
  Forall2 (fun b u => res (sample_room env b f) = Normal u) bs us ->
  flat_map sample_log bs = map (fun b => Pidusage (process_pid b)) bs.
Proof.
  induction 1 as [|b u bs us Hb _ IH]; [reflexivity|].
  cbn. now rewrite (sample_log_normal _ _ _ Hb), IH.
Qed.

(** A sample list is one entry per room. *)
Lemma sampling_normal_inv (bs : Fleet) (us : list RoomUsage) (f : Fleet) :
  res (for_each (sample_room env) bs f) = Normal us ->
  Forall2 (fun b u => res (sample_room env b f) = Normal u) bs us.
Proof.
  revert us. induction bs as [|b bs IH]; intros us; cbn [for_each].
  - intros [= <-]. constructor.
  - pose proof (sample_room_out env b f) as Hb.
    destruct (res (sample_room env b [])) as [u| |] eqn:Eb.
    + rewrite (bind_normal _ _ _ _ _ _ Hb). cbn [res].
      destruct (for_each (sample_room env) bs f) as [rs fs ls] eqn:Es.
      destruct rs as [us'| |].
      * rewrite (bind_normal _ _ _ _ _ _ Es). cbn. intros [= <-].
        constructor; [now rewrite Hb | now apply IH].
      * rewrite (bind_throw _ _ _ _ _ _ Es). discriminate.
      * rewrite (bind_exited _ _ _ _ _ Es). discriminate.
    + rewrite (bind_throw _ _ _ _ _ _ Hb). discriminate.
    + rewrite (bind_exited _ _ _ _ _ Hb). discriminate.
Qed.

Lemma command_meminfo (msg : Message) (f : Fleet) :
  JS.startsWith (content msg) (discordPrefix cfg) = true ->
  JS.includes (mastersDiscordId cfg) (Some (author_id msg)) = true ->
  is_cmd (parse (discordPrefix cfg) (content msg)) "meminfo" = true ->
  _command cfg env msg f = cmd_meminfo env f.
Proof.
  intros Hp Ha Hc. rewrite (command_dispatch _ _ _ _ Hp Ha).
  now rewrite (handler_pick _ _ _ _ (is_cmd_true _ _ Hc)).
Qed.

Lemma getRoomUsageList_sampled (f : Fleet) (us : list RoomUsage) :
  Forall2 (fun b u => res (sample_room env b f) = Normal u) f us ->
  _getRoomUsageList env f =
    {| res := Normal us; fleet := f; log := flat_map sample_log f |}.
Proof.
  intros Hs. unfold _getRoomUsageList.
  rewrite (bind_normal browsers _ f f f [] eq_refl).
  now rewrite (sampling_complete env _ _ _ Hs).
Qed.

(** [cmd_meminfo] when every reading is available. *)
Lemma cmd_meminfo_all_ok (f : Fleet) (us : list RoomUsage)
    (mem : @MemInfo Num) (cpu : Num) (oos : string) (st : @Status Num) :
  Forall2 (fun b u => res (sample_room env b f) = Normal u) f us ->
  mem_info env = Ok mem ->
  cpu_usage env = Ok cpu ->
  os_oos env = Ok oos ->
  pidusage env (Some (own_pid env)) = Ok st ->
  cmd_meminfo env f =
    {| res := Normal tt;
       fleet := f;
       log := ChannelSend embedLoading
                :: (map (fun b => Pidusage (process_pid b)) f
                      ++ [Pidusage (Some (own_pid env));
                          MessageEdit (meminfo_embed env f us mem cpu oos st)])%list |}.
Proof.
  intros Hs Hm Hcpu Hos Hst. unfold cmd_meminfo, send.
  rewrite (bind_normal (emit (ChannelSend embedLoading)) _ f f tt
             [ChannelSend embedLoading] eq_refl).
  rewrite (bind_normal _ _ _ _ _ _ (getRoomUsageList_sampled _ _ Hs)).
  rewrite Hm, Hcpu, Hos, Hst. cbn [await]. rewrite !bind_ret_l.
  rewrite (bind_normal (emit (Pidusage (Some (own_pid env)))) _ f f tt
             [Pidusage (Some (own_pid env))] eq_refl).
  rewrite !bind_ret_l.
  rewrite (bind_normal browsers _ f f f [] eq_refl).
  cbn. now rewrite (sample_logs_normal _ _ _ Hs).
Qed.

Lemma in_pidusage_not_edit (e : Embed) (pids : list (option Z)) :
  ~ In (MessageEdit e) (map Pidusage pids).
Proof. induction pids as [|p pids IH]; cbn; [tauto|]. intros [H|H]; [discriminate | tauto]. Qed.

(** X10.  The report of [meminfo].  For an operator's [meminfo], with the
    samples [us] of the rooms and the host readings [mem], [cpu], [oos]
    (not empty) and [st]: when the placeholder is edited into [e], then [e]
    is the "Information" embed with the six host fields in the order CPUs,
    CPU usage, Free CPU, Memory, OS, Machine Uptime, and with the
    description made of the two lines on the panel's own process followed,
    when the fleet is not empty, by one block of three lines per room in
    the order of the fleet; before the edit the placeholder was sent and
    process telemetry was asked once per room, then for the panel. *)
Theorem meminfo_report_content (msg : Message) (f : Fleet) (us : list RoomUsage)
    (mem : @MemInfo Num) (cpu : Num) (oos : string) (st : @Status Num) (e : Embed) :
  JS.startsWith (content msg) (discordPrefix cfg) = true ->
  JS.includes (mastersDiscordId cfg) (Some (author_id msg)) = true ->
  is_cmd (parse (discordPrefix cfg) (content msg)) "meminfo" = true ->
  Forall2 (fun b u => res (sample_room env b f) = Normal u) f us ->
  mem_info env = Ok mem ->
  cpu_usage env = Ok cpu ->
  os_oos env = Ok oos ->
  oos <> "" ->
  pidusage env (Some (own_pid env)) = Ok st ->
  In (MessageEdit e) (log (_command cfg env msg f)) ->
  e = {| embed_color := Some "#0099ff";
         embed_title := Some "Information";
         embed_timestamp := None;
         embed_description :=
           Some (("CPU server usage: " ++ num_toFixed2 (status_cpu st) ++ "%" ++ nl
                    ++ "Memory server usage: "
                    ++ num_toFixed2 (num_mul1e_6 (status_memory st)) ++ " MB" ++ nl)
                   ++ match f with
                      | [] => ""
                      | _ :: _ =>
                          nl ++ JS.join nl
                                  (map (fun u =>
                                          "**" ++ usage_title u ++ " ("
                                            ++ JS.ofZ (status_pid (usage_process u)) ++ ")**:" ++ nl
                                            ++ num_toFixed2 (status_cpu (usage_process u))
                                            ++ "% CPU" ++ nl
                                            ++ num_toFixed2
                                                 (num_mul1e_6 (status_memory (usage_process u)))
                                            ++ " MB memory" ++ nl) us)
                      end
                   ++ nl);
         embed_fields :=
           [{| field_name := "CPUs"; field_value := num_show (cpu_count env);
               field_inline := true |};
            {| field_name := "CPU usage"; field_value := num_show cpu ++ "%";
               field_inline := true |};
            {| field_name := "Free CPU"; field_value := num_show (num_rsub100 cpu) ++ "%";
               field_inline := true |};
            {| field_name := "Memory";
               field_value := num_toFixed2 (num_div1000 (usedMemMb mem)) ++ "/"
                                ++ num_toFixed2 (num_div1000 (totalMemMb mem)) ++ " GB ("
                                ++ num_show (freeMemPercentage mem) ++ "% livre)";
               field_inline := true |};
            {| field_name := "OS"; field_value := oos; field_inline := true |};
            {| field_name := "Machine Uptime"; field_value := num_clock (os_uptime env);
               field_inline := true |}] |}
  /\ log (_command cfg env msg f) =
       ChannelSend embedLoading
         :: (map (fun b => Pidusage (process_pid b)) f
               ++ [Pidusage (Some (own_pid env)); MessageEdit e])%list.
Proof.
  intros Hp Ha Hc Hs Hm Hcpu Hos _ Hst.
  rewrite (command_meminfo _ _ Hp Ha Hc), (cmd_meminfo_all_ok _ _ _ _ _ _ Hs Hm Hcpu Hos Hst).
  cbn [log]. intros [H|H]; [discriminate H|].
  apply in_app_or in H as [H|H].
  { rewrite <- (map_map process_pid Pidusage) in H. now apply in_pidusage_not_edit in H. }
  destruct H as [H|[H|[]]]; [discriminate H|]. injection H as <-.
  split; [|reflexivity].
  unfold meminfo_embed, roomCPUMessage, serverCPUUsage, memory_text.
  destruct f; reflexivity.
Qed.

(** X11.  [meminfo] never sends a partial report: when the trace of an
    operator's [meminfo] holds an edit of the placeholder, every room of
    the fleet was sampled and the four host readings succeeded. *)
Theorem meminfo_report_needs_everything (msg : Message) (f : Fleet) :
  JS.startsWith (content msg) (discordPrefix cfg) = true ->
  JS.includes (mastersDiscordId cfg) (Some (author_id msg)) = true ->
  is_cmd (parse (discordPrefix cfg) (content msg)) "meminfo" = true ->
  existsb is_report (log (_command cfg env msg f)) = true ->
  exists us mem cpu oos st,
    Forall2 (fun b u => res (sample_room env b f) = Normal u) f us
    /\ mem_info env = Ok mem
    /\ cpu_usage env = Ok cpu
    /\ os_oos env = Ok oos
    /\ pidusage env (Some (own_pid env)) = Ok st.
Proof.
  intros Hp Ha Hc. rewrite (command_meminfo _ _ Hp Ha Hc). unfold cmd_meminfo, send.
  rewrite (bind_normal (emit (ChannelSend embedLoading)) _ f f tt
             [ChannelSend embedLoading] eq_refl).
  destruct (confined_getRoomUsageList env f) as [Hf Hl].
  destruct (_getRoomUsageList env f) as [r f' l] eqn:Hu. cbn [fleet log] in Hf, Hl. subst f'.
  pose proof (no_report_in_pidusage _ Hl) as Hno.
  destruct r as [us|e|].
  - rewrite (bind_normal _ _ _ _ _ _ Hu).
    assert (Hs : Forall2 (fun b u => res (sample_room env b f) = Normal u) f us).
    { apply sampling_normal_inv.
      unfold _getRoomUsageList in Hu.
      rewrite (bind_normal browsers _ f f f [] eq_refl) in Hu.
      apply (f_equal res) in Hu. exact Hu. }
    destruct (mem_info env) as [mem|e]; cbn [await];
      [rewrite bind_ret_l | cbn; rewrite existsb_app, Hno; discriminate].
    destruct (cpu_usage env) as [cpu|e]; cbn [await];
      [rewrite bind_ret_l | cbn; rewrite existsb_app, Hno; discriminate].
    destruct (os_oos env) as [oos|e]; cbn [await];
      [rewrite bind_ret_l | cbn; rewrite existsb_app, Hno; discriminate].
    rewrite (bind_normal (emit (Pidusage (Some (own_pid env)))) _ f f tt
               [Pidusage (Some (own_pid env))] eq_refl).
    destruct (pidusage env (Some (own_pid env))) as [st|e]; cbn [await].
    + intros _. now exists us, mem, cpu, oos, st.
    + cbn. rewrite existsb_app, Hno. discriminate.
  - rewrite (bind_throw _ _ _ _ _ _ Hu). cbn. rewrite Hno. discriminate.
  - rewrite (bind_exited _ _ _ _ _ Hu). cbn. rewrite Hno. discriminate.
Qed.

End Report.

(** ** Opening a room *)

Section Opening.

Context {Num : Type} {numeric : Numeric Num}.
Variable cfg : PainelConfig.
Variable env : @Env Num.

Lemma command_open_run (msg : Message) (f : Fleet) :
  JS.startsWith (content msg) (discordPrefix cfg) = true ->
  JS.includes (mastersDiscordId cfg) (Some (author_id msg)) = true ->
  is_cmd (parse (discordPrefix cfg) (content msg)) "open" = true ->
  _command cfg env msg f =
    bind (cmd_open cfg env (parse (discordPrefix cfg) (content msg))) (fun _ => ret tt) f.
Proof.
  intros Hp Ha Hc. rewrite (command_dispatch _ _ _ _ Hp Ha).
  now rewrite (handler_pick _ _ _ _ (is_cmd_true _ _ Hc)).
Qed.

Lemma cmd_open_unknown (p : Parsed) (f : Fleet) :
  JS.includes (bots_keys cfg) (hd_error (args p)) = false ->
  cmd_open cfg env p f =
    {| res := Normal Return;
       fleet := f;
       log := [ChannelSend (setDescription (unknown_bot_text cfg)
                              (setTitle "Open room" embed0))] |}.
Proof. intros Hk. unfold cmd_open. now rewrite Hk. Qed.

(** X12.  [open] from an operator never fails and always answers: whatever
    the bot name, the script file and the server do, the handler completes
    normally and sends exactly one reply; and the server is asked to spawn
    a room only for a known bot whose script was read, with that script and
    the token of line 139. *)
Theorem open_replies_once (msg : Message) (f : Fleet) :
  JS.startsWith (content msg) (discordPrefix cfg) = true ->
  JS.includes (mastersDiscordId cfg) (Some (author_id msg)) = true ->
  is_cmd (parse (discordPrefix cfg) (content msg)) "open" = true ->
  let p := parse (discordPrefix cfg) (content msg) in
  res (_command cfg env msg f) = Normal tt
  /\ List.length (filter is_reply (log (_command cfg env msg f))) = 1
  /\ (forall data token,
        In (ServerOpen data token) (log (_command cfg env msg f)) ->
        JS.includes (bots_keys cfg) (hd_error (args p)) = true
        /\ fs_readFile env (bots_get (bots cfg) (hd_error (args p))) = Ok data
        /\ token = open_token p).
Proof.
  intros Hp Ha Hc. cbv zeta. rewrite (command_open_run _ _ Hp Ha Hc).
  remember (parse (discordPrefix cfg) (content msg)) as p eqn:Ep. clear Ep Hc.
  destruct (JS.includes (bots_keys cfg) (hd_error (args p))) eqn:Hk.
  - destruct (fs_readFile env (bots_get (bots cfg) (hd_error (args p)))) as [data|err] eqn:Hr.
    + rewrite (bind_normal _ _ _ _ _ _ (cmd_open_known cfg env p data f Hk Hr)).
      cbn. split; [reflexivity|]. split; [reflexivity|].
      intros data' token [H|[H|[H|[]]]]; try discriminate H.
      injection H as E1 E2. subst. now repeat split.
    + rewrite (bind_normal _ _ _ _ _ _ (cmd_open_unreadable cfg env p err f Hk Hr)).
      cbn. split; [reflexivity|]. split; [reflexivity|].
      intros data' token [H|[H|[]]]; discriminate H.
  - rewrite (bind_normal _ _ _ _ _ _ (cmd_open_unknown p f Hk)).
    cbn. split; [reflexivity|]. split; [reflexivity|].
    intros data' token [H|[]]; discriminate H.
Qed.

(** X13.  [open] from an operator, for a known bot whose script cannot be
    read: the read error is the reply, no room is spawned and the fleet is
    untouched. *)
Theorem open_unreadable_script (msg : Message) (f : Fleet) (err : Error) :
  JS.startsWith (content msg) (discordPrefix cfg) = true ->
  JS.includes (mastersDiscordId cfg) (Some (author_id msg)) = true ->
  is_cmd (parse (discordPrefix cfg) (content msg)) "open" = true ->
  let p := parse (discordPrefix cfg) (content msg) in
  JS.includes (bots_keys cfg) (hd_error (args p)) = true ->
  fs_readFile env (bots_get (bots cfg) (hd_error (args p))) = Err err ->
  _command cfg env msg f =
    {| res := Normal tt;
       fleet := f;
       log := [FsReadFile (bots_get (bots cfg) (hd_error (args p)));
               ChannelSend (setDescription ("Error: " ++ err)
                              (setTitle "Open room" embed0))] |}.
Proof.
  intros Hp Ha Hc. cbv zeta. intros Hk Hr. rewrite (command_open_run _ _ Hp Ha Hc).
  now rewrite (bind_normal _ _ _ _ _ _ (cmd_open_unreadable cfg env _ err f Hk Hr)).
Qed.

(** ** The listener and the command surface *)

(** X2.  The listener adds nothing to [_command] and never calls
    [_logError]: for every message its trace and its fleet are those of
    [_command]; its promise is fulfilled when [_command] completes, and
    left rejected, with the same error, when [_command] fails. *)
Theorem listener_never_logs (msg : Message) (f : Fleet) :
  fleet (on_message cfg env msg f) = fleet (_command cfg env msg f)
  /\ log (on_message cfg env msg f) = log (_command cfg env msg f)
  /\ res (on_message cfg env msg f) =
       match res (_command cfg env msg f) with
       | Normal _ => Normal Fulfilled
       | Throw e => Normal (Rejected e)
       | Exited => Exited
       end.
Proof.
  rewrite listener_runs_command. unfold call_async. cbn. repeat split.
Qed.

(** X1.  A message that does not start with the prefix is ignored, whoever
    sends it and whatever it holds: no reply, no call to the outside, the
    fleet as it was. *)
Theorem ignores_unprefixed (msg : Message) (f : Fleet) :
  JS.startsWith (content msg) (discordPrefix cfg) = false ->
  on_message cfg env msg f = {| res := Normal Fulfilled; fleet := f; log := [] |}.
Proof.
  intros H. apply listener_silent. now apply command_not_prefixed.
Qed.

(** X3.  The names that [help] lists are exactly the commands that do
    something: for an operator's message in ASCII that starts with the
    prefix, [_command] is silent (no call to the outside, normal
    completion, fleet untouched) if and only if the parsed command is none
    of the listed names. *)
Theorem command_surface (msg : Message) (f : Fleet) :
  is_ascii (content msg) = true ->
  JS.startsWith (content msg) (discordPrefix cfg) = true ->
  JS.includes (mastersDiscordId cfg) (Some (author_id msg)) = true ->
  _command cfg env msg f = silent tt f
  <-> recognized (parse (discordPrefix cfg) (content msg)) = false.
Proof.
  intros _.
  intros Hp Ha. split; [|apply command_unrecognized].
  destruct (recognized (parse (discordPrefix cfg) (content msg))) eqn:Hr; [|reflexivity].
  intros Hs. exfalso. revert Hs.
  rewrite (command_dispatch _ _ _ _ Hp Ha).
  remember (parse (discordPrefix cfg) (content msg)) as p eqn:Ep. clear Ep.
  unfold recognized in Hr.
  change command_names
    with ["help"; "info"; "meminfo"; "open"; "close"; "exit"; "eval"; "tokenlink"] in Hr.
  cbn [existsb] in Hr.
  repeat (apply orb_prop in Hr; destruct Hr as [Hr|Hr]); try discriminate Hr;
    rewrite (handler_pick _ _ _ _ (is_cmd_true _ _ Hr)); eval_eqb; cbv iota;
    intros Hs.
  - discriminate (f_equal log Hs).
  - unfold cmd_info, bind in Hs.
    destruct (_getRoomNameList f) as [[s| |] f' l]; cbn in Hs;
      try discriminate (f_equal res Hs).
    apply (f_equal log) in Hs. cbn in Hs. now destruct l.
  - unfold cmd_meminfo, send in Hs.
    rewrite (bind_normal (emit (ChannelSend embedLoading)) _ f f tt
               [ChannelSend embedLoading] eq_refl) in Hs.
    discriminate (f_equal log Hs).
  - destruct (JS.includes (bots_keys cfg) (hd_error (args p))) eqn:Hk.
    + destruct (fs_readFile env (bots_get (bots cfg) (hd_error (args p)))) as [data|err] eqn:Hf.
      * rewrite (bind_normal _ _ _ _ _ _ (cmd_open_known cfg env p data f Hk Hf)) in Hs.
        discriminate (f_equal log Hs).
      * rewrite (bind_normal _ _ _ _ _ _ (cmd_open_unreadable cfg env p err f Hk Hf)) in Hs.
        discriminate (f_equal log Hs).
    + rewrite (bind_normal _ _ _ _ _ _ (cmd_open_unknown p f Hk)) in Hs.
      discriminate (f_equal log Hs).
  - unfold cmd_close, call_close, bind, emit in Hs. cbn in Hs.
    destruct (server_close env (text p) f) as [[b|e] f']; cbn in Hs;
      discriminate (f_equal log Hs).
  - unfold cmd_exit, send in Hs.
    rewrite (bind_normal (emit (ChannelSend closing_embed)) _ f f tt
               [ChannelSend closing_embed] eq_refl) in Hs.
    discriminate (f_equal log Hs).
  - unfold cmd_eval, call_eval, try_catch, bind, emit in Hs. cbn in Hs.
    destruct (js_eval env (JS.join " " (args p)) f) as [[v|e] f']; cbn in Hs;
      discriminate (f_equal log Hs).
  - discriminate (f_equal log Hs).
Qed.

End Opening.

(** ** Instances *)

(** X14, an instance.  A target of two words. *)
Lemma close_target_is_tail_witness :
  _command Sample.cfg Sample.env (Sample.operator "!close Room A") Sample.fleet3 =
    {| res := Normal tt;
       fleet := Sample.fleet3;
       log := [ServerClose "Room A"; ChannelSend (close_reply false)] |}.
Proof.
  apply (close_target_is_tail Sample.cfg Sample.env "close Room A" "close" "Room A" "42"
           Sample.fleet3); reflexivity.
Defined.

(** X15, an instance.  The three rooms of the scenario are closed in order. *)
Lemma exit_closes_every_browser_witness :
  log (_command Sample.cfg Sample.env (Sample.operator "!exit") Sample.fleet3) =
    [ChannelSend closing_embed;
     BrowserClose Sample.roomA; BrowserClose Sample.roomB; BrowserClose Sample.roomC;
     ProcessExit]
  /\ res (_command Sample.cfg Sample.env (Sample.operator "!exit") Sample.fleet3) = Exited
  /\ res (on_message Sample.cfg Sample.env (Sample.operator "!exit") Sample.fleet3) = Exited.
Proof.
  apply (exit_closes_every_browser Sample.cfg Sample.env (Sample.operator "!exit")
           Sample.fleet3); reflexivity.
Defined.

(** X16, an instance.  The evaluated code names something that does not
    exist. *)
Lemma eval_throw_is_reported_witness :
  res (_command Sample.cfg env_eval_throws (Sample.operator "!eval rooms.length") [])
    = Normal tt
  /\ In (ChannelSendText
           ("`ERROR` ```xl" ++ nl ++ "ReferenceError: rooms is not defined" ++ nl ++ "```")
           None)
       (log (_command Sample.cfg env_eval_throws (Sample.operator "!eval rooms.length") [])).
Proof.
  apply (eval_throw_is_reported Sample.cfg env_eval_throws
           (Sample.operator "!eval rooms.length") []); reflexivity.
Defined.

(** X17, an instance. *)
Lemma eval_code_is_tail_witness :
  log (_command Sample.cfg Sample.env (Sample.operator "! EVAL this._server.browsers.length ") [])
  = [JsEval "this._server.browsers.length";
     ChannelSendText "undefined" (Some "javascript")].
Proof.
  apply (eval_code_is_tail Sample.cfg Sample.env " EVAL this._server.browsers.length "
           "EVAL" "this._server.browsers.length" "42" []); reflexivity.
Defined.

(** X10, an instance.  One room, every reading available. *)
Lemma meminfo_report_content_witness :
  log (_command Sample.cfg Sample.env (Sample.operator "!meminfo") [Sample.roomC])
  = [ChannelSend embedLoading;
     Pidusage (Some 103%Z);
     Pidusage (Some 1%Z);
     MessageEdit
       {| embed_color := Some "#0099ff";
          embed_title := Some "Information";
          embed_timestamp := None;
          embed_description :=
            Some ("CPU server usage: 3.00%" ++ nl
                    ++ "Memory server usage: 52.43 MB" ++ nl
                    ++ nl
                    ++ "**Room C (103)**:" ++ nl
                    ++ "3.00% CPU" ++ nl
                    ++ "52.43 MB memory" ++ nl
                    ++ nl);
          embed_fields :=
            [{| field_name := "CPUs"; field_value := "4"; field_inline := true |};
             {| field_name := "CPU usage"; field_value := "12%"; field_inline := true |};
             {| field_name := "Free CPU"; field_value := "88%"; field_inline := true |};
             {| field_name := "Memory"; field_value := "2.05/8.19 GB (75% livre)";
                field_inline := true |};
             {| field_name := "OS"; field_value := "Ubuntu 20.04"; field_inline := true |};
             {| field_name := "Machine Uptime"; field_value := "02:03:04";
                field_inline := true |}] |}].
Proof.
  refine (proj2 (meminfo_report_content Sample.cfg Sample.env (Sample.operator "!meminfo")
                   [Sample.roomC]
                   [{| usage_process := Sample.reading 3 52428800 103;
                       usage_title := "Room C" |}]
                   {| usedMemMb := Dec.of_Z 2048; totalMemMb := Dec.of_Z 8192;
                      freeMemPercentage := Dec.of_Z 75 |}
                   (Dec.of_Z 12) "Ubuntu 20.04" (Sample.reading 3 52428800 1) _
                   eq_refl eq_refl eq_refl _ eq_refl eq_refl eq_refl _ eq_refl _)).
  - repeat constructor.
  - discriminate.
  - do 3 right. left. reflexivity.
Defined.

(** X11, an instance. *)
Lemma meminfo_report_needs_everything_witness :
  exists us mem cpu oos st,
    Forall2 (fun b u => res (sample_room Sample.env b [Sample.roomC]) = Normal u)
      [Sample.roomC] us
    /\ mem_info Sample.env = Ok mem
    /\ cpu_usage Sample.env = Ok cpu
    /\ os_oos Sample.env = Ok oos
    /\ pidusage Sample.env (Some (own_pid Sample.env)) = Ok st.
Proof.
  apply (meminfo_report_needs_everything Sample.cfg Sample.env
           (Sample.operator "!meminfo") [Sample.roomC]); reflexivity.
Defined.

(** X12, an instance.  A spawn that succeeds: one reply, one room more. *)
Lemma open_replies_once_witness :
  res (_command Sample.cfg Sample.env (Sample.operator "!open alpha thr1.AAA") []) = Normal tt
  /\ List.length (filter is_reply
       (log (_command Sample.cfg Sample.env (Sample.operator "!open alpha thr1.AAA") []))) = 1.
Proof.
  destruct (open_replies_once Sample.cfg Sample.env (Sample.operator "!open alpha thr1.AAA") []
              eq_refl eq_refl eq_refl) as (H1 & H2 & _).
  split; [exact H1 | exact H2].
Defined.

(** X13, an instance.  The script of beta is not on the disk. *)
Lemma open_unreadable_script_witness :
  _command Sample.cfg Sample.env (Sample.operator "!open beta thr1.AAA") Sample.fleet3 =
    {| res := Normal tt;
       fleet := Sample.fleet3;
       log := [FsReadFile (Some "bots/beta.js");
               ChannelSend (setDescription "Error: Error: ENOENT: no such file or directory"
                              (setTitle "Open room" embed0))] |}.
Proof.
  apply (open_unreadable_script Sample.cfg Sample.env (Sample.operator "!open beta thr1.AAA")
           Sample.fleet3 "Error: ENOENT: no such file or directory"); reflexivity.
Defined.

(** X1, an instance.  The prefix in the middle of a message does not count. *)
Lemma ignores_unprefixed_witness :
  on_message Sample.cfg Sample.env (Sample.operator "please !exit") Sample.fleet3 =
    {| res := Normal Fulfilled; fleet := Sample.fleet3; log := [] |}.
Proof.
  apply (ignores_unprefixed Sample.cfg Sample.env (Sample.operator "please !exit")
           Sample.fleet3); reflexivity.
Defined.

(** X3, an instance. *)
Lemma command_surface_witness :
  _command Sample.cfg Sample.env (Sample.operator "!rooms") Sample.fleet3
    = silent tt Sample.fleet3
  <-> recognized (parse "!" "!rooms") = false.
Proof.
  apply (command_surface Sample.cfg Sample.env (Sample.operator "!rooms") Sample.fleet3);
    reflexivity.
Defined.
